(** * Financial Expense Tracker: the report engine and the record store

    A shallow embedding of [financial_expenses.py].

    [Py] models the Python values the program computes with.  A float is an
    IEEE 754 binary64 number ([spec_float] at precision 53, the Standard
    Library's executable specification), so sums, quotients and comparisons
    round and order as Python's do.  An exception is a value of an error
    monad.  Text is ASCII: letters, digits and blanks are the ASCII ones.
    [float(s)], [f"{x:.2f}"], [datetime.strptime] with the program's format
    and [list.sort(key=...)] are written out.

    [Tracker] is the program: every function of the source and the menu
    branches of [main], each a function of the stored rows and of the widget
    inputs (the number typed in, the button, the number [random.choice]
    draws, the clock).  The views that only hand the rows to the
    spreadsheet, PDF and chart libraries are left out.

    The properties follow, after the vocabulary their statements use. *)

From Stdlib Require Import ZArith Lia String Ascii DecimalString.
From Stdlib Require Import Floats.SpecFloat Sorting.Sorted.
From stdpp Require Import base list strings.

Local Open Scope Z_scope.

(** ** Python values *)
Module Py.

(** *** Exceptions *)
Inductive exn :=
| ValueError | IndexError | ZeroDivisionError | AttributeError | TypeError.

Inductive result (A : Type) :=
| Ok (a : A)
| Raise (e : exn).
Arguments Ok {A} a.
Arguments Raise {A} e.

Definition bind {A B} (r : result A) (k : A -> result B) : result B :=
  match r with
  | Ok a => k a
  | Raise e => Raise e
  end.

Definition of_option {A} (e : exn) (o : option A) : result A :=
  match o with
  | Some a => Ok a
  | None => Raise e
  end.

(** [for x in l: ...] where the body may raise: the first exception ends
    the loop. *)
#[global] Instance result_bind : MBind result := fun A B k r => bind r k.
#[global] Instance result_ret : MRet result := @Ok.

(** [for x in l: ...] where the body may raise: the first exception ends
    the loop. *)
Fixpoint traverse {A B} (f : A -> result B) (l : list A) : result (list B) :=
  match l with
  | [] => Ok []
  | x :: l' => y ← f x; ys ← traverse f l'; Ok (y :: ys)
  end.

(** [[x for x in l if p(x)]] where the test may raise. *)
Fixpoint select {A} (p : A -> result bool) (l : list A) : result (list A) :=
  match l with
  | [] => Ok []
  | x :: l' => b ← p x; xs ← select p l'; Ok (if b : bool then x :: xs else xs)
  end.

(** *** Floats: binary64 *)
Definition float := spec_float.
Definition prec : Z := 53.
Definition emax : Z := 1024.

(** An [int] literal met by a float operand is converted to the nearest
    float; the literals of the program are all exact. *)
Definition float_of_int (z : Z) : float := binary_normalize prec emax z 0 false.

Definition fadd : float -> float -> float := SFadd prec emax.
Definition fmul : float -> float -> float := SFmul prec emax.
Definition feq : float -> float -> bool := SFeqb.
Definition flt : float -> float -> bool := SFltb.
Definition fle : float -> float -> bool := SFleb.
Definition fgt (x y : float) : bool := SFltb y x.
Definition is_nan (x : float) : bool :=
  match x with S754_nan => true | _ => false end.

(** [bool(x)]: a float is falsy exactly when it equals zero. *)
Definition truthy (x : float) : bool := negb (feq x (float_of_int 0)).

(** [x / y] raises on a zero divisor. *)
Definition truediv (x y : float) : result float :=
  if feq y (float_of_int 0) then Raise ZeroDivisionError
  else Ok (SFdiv prec emax x y).

(** *** Characters and strings (ASCII) *)
Definition code (c : ascii) : Z := Z.of_nat (nat_of_ascii c).
Definition is_digit (c : ascii) : bool := (48 <=? code c) && (code c <=? 57).
Definition digit_val (c : ascii) : Z := code c - 48.
(** The blanks [float] skips around a literal (C's [isspace]). *)
Definition is_space (c : ascii) : bool :=
  ((9 <=? code c) && (code c <=? 13)) || (code c =? 32).
(** The blanks [\s] matches in a regular expression over [str]. *)
Definition is_blank (c : ascii) : bool :=
  is_space c || ((28 <=? code c) && (code c <=? 31)).
Definition is_upper (c : ascii) : bool := (65 <=? code c) && (code c <=? 90).
Definition lower_char (c : ascii) : ascii :=
  if is_upper c then ascii_of_nat (nat_of_ascii c + 32) else c.

(** [s.lower()] *)
Fixpoint lower (s : string) : string :=
  match s with
  | EmptyString => EmptyString
  | String c s' => String (lower_char c) (lower s')
  end.

(** [s.startswith(p)] *)
Definition startswith (s p : string) : bool := String.prefix p s.

(** [int(ds)] for a run of decimal digits, most significant first. *)
Definition int_of_digits (ds : list ascii) : Z :=
  fold_left (fun acc c => 10 * acc + digit_val c) ds 0.

Fixpoint span (p : ascii -> bool) (s : list ascii) : list ascii * list ascii :=
  match s with
  | c :: s' =>
      if p c then let '(a, b) := span p s' in (c :: a, b) else ([], s)
  | [] => ([], [])
  end.

(** *** [float(s)] *)

(** Underscores may only stand between two digits; they are dropped
    before the number is read. [prev] is the character before [s]. *)
Fixpoint drop_underscores (prev : ascii) (s : list ascii) : option (list ascii) :=
  match s with
  | [] => if Ascii.eqb prev "_" then None else Some []
  | c :: s' =>
      if Ascii.eqb c "_" then
        if is_digit prev then drop_underscores c s' else None
      else if Ascii.eqb prev "_" && negb (is_digit c) then None
      else option_map (cons c) (drop_underscores c s')
  end.

Fixpoint lstrip (s : list ascii) : list ascii :=
  match s with
  | c :: s' => if is_space c then lstrip s' else s
  | [] => []
  end.

Definition strip (s : list ascii) : list ascii := rev (lstrip (rev (lstrip s))).

Definition read_sign (s : list ascii) : bool * list ascii :=
  match s with
  | c :: s' =>
      if Ascii.eqb c "-" then (true, s')
      else if Ascii.eqb c "+" then (false, s')
      else (false, s)
  | [] => (false, [])
  end.

(** The float nearest to [±m * 10^e] (ties to even); overflow gives an
    infinity. *)
Definition float_of_decimal (neg : bool) (m e : Z) : float :=
  match m with
  | Z0 => S754_zero neg
  | _ =>
      if 0 <=? e then
        binary_normalize prec emax ((if neg then - m else m) * 10 ^ e) 0 false
      else
        let '(q, e', l) := SFdiv_core_binary prec emax m 0 (10 ^ (- e)) 0 in
        binary_round_aux prec emax neg q e' l
  end.

Definition read_number (neg : bool) (s : list ascii) : option float :=
  let '(ip, s1) := span is_digit s in
  let '(fp, s2) :=
    match s1 with
    | c :: t => if Ascii.eqb c "." then span is_digit t else ([], s1)
    | [] => ([], [])
    end in
  match ip ++ fp with
  | [] => None
  | ds =>
      let frac := Z.of_nat (length fp) in
      match s2 with
      | [] => Some (float_of_decimal neg (int_of_digits ds) (- frac))
      | c :: t =>
          if Ascii.eqb (lower_char c) "e" then
            let '(eneg, t1) := read_sign t in
            let '(ed, t2) := span is_digit t1 in
            match ed, t2 with
            | _ :: _, [] =>
                let ex := int_of_digits ed in
                Some (float_of_decimal neg (int_of_digits ds)
                        ((if eneg then - ex else ex) - frac))
            | _, _ => None
            end
          else None
      end
  end.

Definition read_float (s : list ascii) : option float :=
  let '(neg, s1) := read_sign s in
  let word := lower (string_of_list_ascii s1) in
  if String.eqb word "inf" || String.eqb word "infinity" then
    Some (S754_infinity neg)
  else if String.eqb word "nan" then Some S754_nan
  else read_number neg s1.

(** [float(s)] for a string [s] of ASCII characters; [ValueError] when
    [s] is not a float literal.  (On other text [float] also reads the
    decimal digits and the blanks of other scripts; statements that need
    it say that the text is ASCII.) *)
Definition float_of_string (s : string) : result float :=
  of_option ValueError
    (match drop_underscores "000" (list_ascii_of_string s) with
     | Some s' => read_float (strip s')
     | None => None
     end).

(** *** [f"{x:.2f}"] *)
Definition string_of_nat_Z (z : Z) : string :=
  NilZero.string_of_uint (N.to_uint (Z.to_N z)).

(** The integer nearest to [m * 2^e * 100], ties to even. *)
Definition hundredths (m : positive) (e : Z) : Z :=
  if 0 <=? e then Zpos m * 2 ^ e * 100
  else
    let d := 2 ^ (- e) in
    let q := (Zpos m * 100) / d in
    let r := (Zpos m * 100) mod d in
    match 2 * r ?= d with
    | Lt => q
    | Gt => q + 1
    | Eq => if Z.even q then q else q + 1
    end.

Definition fixed2 (n : Z) : string :=
  string_of_nat_Z (n / 100) +:+ "." +:+
  string_of_nat_Z (n mod 100 / 10) +:+ string_of_nat_Z (n mod 10).

Definition format_2f (x : float) : string :=
  let sign (s : bool) : string := if s then "-" else "" in
  match x with
  | S754_nan => "nan"
  | S754_infinity s => sign s +:+ "inf"
  | S754_zero s => sign s +:+ "0.00"
  | S754_finite s m e => sign s +:+ fixed2 (hundredths m e)
  end.

(** *** [datetime.strptime(s, "%Y-%m-%d %H:%M")] *)
Record datetime := mk_datetime
  { year : Z; month : Z; day : Z; hour : Z; minute : Z }.

(** A piece of the regular expression the format compiles to: every way
    it matches at the head of the input, most preferred first, with the
    number read and the rest of the input. *)
Definition matcher := list ascii -> list (Z * list ascii).

Definition digit_in (lo hi : Z) : matcher := fun s =>
  match s with
  | c :: t =>
      if is_digit c && (lo <=? digit_val c) && (digit_val c <=? hi)
      then [(digit_val c, t)] else []
  | [] => []
  end.

Definition then_digit (m : matcher) (lo hi : Z) : matcher := fun s =>
  flat_map (fun '(a, t) =>
              map (fun '(b, t') => (10 * a + b, t')) (digit_in lo hi t)) (m s).

Definition two_digits (lo1 hi1 lo2 hi2 : Z) : matcher :=
  then_digit (digit_in lo1 hi1) lo2 hi2.

Definition alt (m1 m2 : matcher) : matcher := fun s => m1 s ++ m2 s.

Definition lit (c : ascii) : matcher := fun s =>
  match s with
  | c' :: t => if Ascii.eqb c c' then [(0, t)] else []
  | [] => []
  end.

(** [\d\d\d\d] *)
Definition re_Y : matcher :=
  then_digit (then_digit (two_digits 0 9 0 9) 0 9) 0 9.
(** [1[0-2]|0[1-9]|[1-9]] *)
Definition re_m : matcher :=
  alt (two_digits 1 1 0 2) (alt (two_digits 0 0 1 9) (digit_in 1 9)).
(** [3[0-1]|[1-2]\d|0[1-9]|[1-9]| [1-9]] *)
Definition re_d : matcher :=
  alt (two_digits 3 3 0 1)
    (alt (two_digits 1 2 0 9)
       (alt (two_digits 0 0 1 9)
          (alt (digit_in 1 9)
             (fun s => flat_map (fun '(_, t) => digit_in 1 9 t) (lit " " s))))).
(** [2[0-3]|[0-1]\d|\d] *)
Definition re_H : matcher :=
  alt (two_digits 2 2 0 3) (alt (two_digits 0 1 0 9) (digit_in 0 9)).
(** [[0-5]\d|\d] *)
Definition re_M : matcher := alt (two_digits 0 5 0 9) (digit_in 0 9).

(** [\s+]: the longest run of blanks first, then shorter ones. *)
Fixpoint re_spaces (s : list ascii) : list (list ascii) :=
  match s with
  | c :: t => if is_blank c then re_spaces t ++ [t] else []
  | [] => []
  end.

(** All matches of the whole expression, most preferred first. *)
Definition re_timestamp (s : list ascii) : list (datetime * list ascii) :=
  '(y, s) ← re_Y s;
  '(_, s) ← lit "-" s;
  '(m, s) ← re_m s;
  '(_, s) ← lit "-" s;
  '(d, s) ← re_d s;
  s ← re_spaces s;
  '(h, s) ← re_H s;
  '(_, s) ← lit ":" s;
  '(mi, s) ← re_M s;
  [(mk_datetime y m d h mi, s)].

Definition is_leap (y : Z) : bool :=
  (y mod 4 =? 0) && (negb (y mod 100 =? 0) || (y mod 400 =? 0)).

Definition days_in_month (y m : Z) : Z :=
  if m =? 2 then (if is_leap y then 29 else 28)
  else if (m =? 4) || (m =? 6) || (m =? 9) || (m =? 11) then 30
  else 31.

(** The first match has to use up the whole string, and the fields have
    to name a day of the calendar (years start at 1). *)
Definition strptime (s : string) : result datetime :=
  match re_timestamp (list_ascii_of_string s) with
  | (dt, []) :: _ =>
      if (1 <=? year dt) && (day dt <=? days_in_month (year dt) (month dt))
      then Ok dt else Raise ValueError
  | _ => Raise ValueError
  end.

(** [a < b] on datetimes *)
Definition dt_lt (a b : datetime) : bool :=
  match year a ?= year b with
  | Lt => true | Gt => false
  | Eq =>
      match month a ?= month b with
      | Lt => true | Gt => false
      | Eq =>
          match day a ?= day b with
          | Lt => true | Gt => false
          | Eq =>
              match hour a ?= hour b with
              | Lt => true | Gt => false
              | Eq => minute a <? minute b
              end
          end
      end
  end.

(** *** [d.strftime("%Y-%m-%d %H:%M")]

    Two digits for the month, the day, the hour and the minute, four for
    the year (years from 1000 on are written so on every platform). *)
Definition digit_char (d : Z) : ascii := ascii_of_nat (Z.to_nat (48 + d)).
Definition pad2 (v : Z) : list ascii := [digit_char (v / 10); digit_char (v mod 10)].
Definition pad4 (v : Z) : list ascii :=
  [ digit_char (v / 1000); digit_char (v / 100 mod 10);
    digit_char (v / 10 mod 10); digit_char (v mod 10) ].
Definition strftime (d : datetime) : string :=
  string_of_list_ascii
    (pad4 (year d) ++ "-"%char :: pad2 (month d) ++ "-"%char :: pad2 (day d)
       ++ " "%char :: pad2 (hour d) ++ ":"%char :: pad2 (minute d)).

(** *** Lists *)

(** [l[i]] *)
Definition index {A} (l : list A) (i : nat) : result A :=
  of_option IndexError (l !! i).

(** [l.pop(i)]: the element and the list without it. *)
Definition pop {A} (l : list A) (i : nat) : result (A * list A) :=
  x ← index l i; Ok (x, delete i l).

(** [l[i] = x] *)
Definition setitem {A} (l : list A) (i : nat) (x : A) : result (list A) :=
  if decide (i < length l)%nat then Ok (<[i := x]> l) else Raise IndexError.

(** [random.choice(l)], [r] being the number drawn. *)
Definition choice {A} (r : nat) (l : list A) : result A :=
  index l (r mod length l).

(** [sum(l)] of floats, up to CPython 3.11: the additions run left to
    right from the int [0], which adds, compares and prints as the float
    [0.0] does. *)
Definition sum (l : list float) : float := fold_left fadd l (float_of_int 0).

(** [sum(l)] of floats from CPython 3.12 on: the first addition is the
    plain one to the int [0]; from then on the running total is a float
    and the additions are compensated (Neumaier), the compensation being
    added at the end when it is not zero and finite. *)
Definition fsub (x y : float) : float := SFsub prec emax x y.
Definition fabs (x : float) : float := SFabs x.
Definition is_finite (x : float) : bool :=
  match x with
  | S754_zero _ | S754_finite _ _ _ => true
  | S754_infinity _ | S754_nan => false
  end.

Definition compensate (st : float * float) (x : float) : float * float :=
  let '(f_result, c) := st in
  let t := fadd f_result x in
  let c :=
    if fle (fabs x) (fabs f_result) then fadd c (fadd (fsub f_result t) x)
    else fadd c (fadd (fsub x t) f_result) in
  (t, c).

Definition sum_compensated (l : list float) : float :=
  match l with
  | [] => float_of_int 0
  | x :: l' =>
      let '(f_result, c) :=
        fold_left compensate l' (fadd (float_of_int 0) x, S754_zero false) in
      if truthy c && is_finite c then fadd f_result c else f_result
  end.

(** [l.sort(key=f)]: the keys are computed first, then the elements are
    ordered by [<] on the keys alone, elements with equal keys staying in
    their order.  On keys that [<] orders totally this list is unique, so
    the insertion sort below stands for the library's merge sort. *)
Section Sort.
Context {K A : Type} (lt : K -> K -> bool).

Fixpoint insert (x : K * A) (l : list (K * A)) : list (K * A) :=
  match l with
  | [] => [x]
  | y :: l' => if lt (fst y) (fst x) then y :: insert x l' else x :: l
  end.

Definition isort (l : list (K * A)) : list (K * A) := foldr insert [] l.

Definition keyed (key : A -> result K) (l : list A) : result (list (K * A)) :=
  traverse (fun x => k ← key x; Ok (k, x)) l.

Definition sort (key : A -> result K) (l : list A) : result (list A) :=
  kl ← keyed key l; Ok (map snd (isort kl)).
End Sort.

End Py.

(** ** The program *)
Module Tracker.
Import Py.

(** [financial_feedback(total, budget=None)] *)
Definition financial_feedback (total : float) (budget : option float) : string :=
  if feq total (float_of_int 0) then
    "No expenses recorded. Start tracking to understand your habits."
  else
    let feedback := "" in
    let feedback :=
      if flt total (float_of_int 1000) then
        feedback +:+ "You're doing great! Keep up the low spending habits."
      else if flt total (float_of_int 5000) then
        feedback +:+ "You're managing fairly well, but review any non-essentials."
      else if flt total (float_of_int 10000) then
        feedback +:+ "Consider budgeting more strictly and cutting excesses."
      else
        feedback +:+ "Warning: High spending! Analyze where most of your money is going." in
    match budget with
    | Some b =>
        if truthy b then
          if fgt total b then
            feedback +:+ " You have exceeded your budget of R" +:+ format_2f b
                     +:+ ". Consider cutting back next month."
          else
            feedback +:+ " You are within your budget of R" +:+ format_2f b
                     +:+ ". Well done!"
        else feedback
    | None => feedback
    end.

(** *** Rows

    A row is a Python list of cells.  [csv.reader] yields rows of
    strings; the add and edit paths put a float in the amount cell of
    the row they hand to [csv.writer]. *)
Inductive cell :=
| Str (s : string)
| Flt (x : float).

Abbreviation row := (list cell).

#[global] Instance float_eq_dec : EqDecision float.
Proof. unfold float. solve_decision. Defined.
#[global] Instance cell_eq_dec : EqDecision cell.
Proof. solve_decision. Defined.

(** [float(c)] *)
Definition py_float (c : cell) : result float :=
  match c with
  | Str s => float_of_string s
  | Flt x => Ok x
  end.

(** [c.lower()] *)
Definition py_lower (c : cell) : result string :=
  match c with
  | Str s => Ok (lower s)
  | Flt _ => Raise AttributeError
  end.

(** [c.startswith(p)] *)
Definition py_startswith (c : cell) (p : string) : result bool :=
  match c with
  | Str s => Ok (startswith s p)
  | Flt _ => Raise AttributeError
  end.

(** [datetime.strptime(c, "%Y-%m-%d %H:%M")] *)
Definition py_strptime (c : cell) : result datetime :=
  match c with
  | Str s => strptime s
  | Flt _ => Raise TypeError
  end.

(** *** The store

    [expenses.csv], as the sequence of rows it holds: [None] until the
    file is first written.  The text of the file is not modelled: a row
    of strings is read back as it was written, and a [Flt x] cell of a
    stored row stands for the text that [csv.writer] writes for [x], which
    a later run reads as a string; how [float] reads that text back is
    not stated. *)
Definition file := option (list row).

(** [is_valid_amount(amount)] *)
Definition is_valid_amount (amount : string) : result bool :=
  match float_of_string amount with
  | Ok _ => Ok true
  | Raise ValueError => Ok false
  | Raise e => Raise e
  end.

(** [read_expenses()] *)
Definition read_expenses (f : file) : list row :=
  match f with
  | None => []
  | Some rows => rows
  end.

(** [write_expenses(expenses)] *)
Definition write_expenses (expenses : list row) : file := Some expenses.

(** [show_random_tip()], [r] being the number drawn by [random.choice]. *)
Definition show_random_tip (r : nat) : result string :=
  let tips :=
    [ "Track your spending daily to avoid surprises.";
      "Group similar expenses to understand patterns.";
      "Always categorize your income separately.";
      "Try to save at least 10% of your monthly income.";
      "Review your top 3 expense categories weekly.";
      "Use the summary graph to find spending leaks.";
      "Avoid emotional spending — pause before buying." ] in
  choice r tips.

(** [tip_based_on_expenses(expenses)] *)
Definition tip_based_on_expenses (r : nat) (expenses : list row) : result string :=
  match expenses with
  | [] => Ok "Start logging your expenses to get personalized tips!"
  | _ =>
      let tips :=
        [ "Have you considered using separate categories for fixed vs variable expenses?";
          "Look at your most frequent category — is there a way to reduce it?";
          "Use spending caps per category to better control your budget.";
          "Consider using cash for categories where you overspend digitally.";
          "High spending in one area? Try a weekly spending freeze for it." ] in
      choice r tips
  end.

(** *** [main]

    What a run of the script shows: the calls to [st.*], in order.
    [WriteRow i row] stands for [st.write(f"{i}: {row}")], [Deleted row]
    for [st.success(f"Deleted: {row}")] and [WriteTotal c t] for
    [st.write(f"{c}: {t}")].  A branch that raises shows the exception
    instead; in every branch the store is written last, so a branch that
    raises has written nothing. *)
Inductive ui :=
| Subheader (s : string)
| Metric (label value : string)
| Write (s : string)
| WriteRow (i : nat) (r : row)
| WriteTotal (category : cell) (total : string)
| Info (s : string)
| Success (s : string)
| Deleted (r : row)
| Warning (s : string)
| Error (s : string)
| Table (rows : list row).

(** The sidebar: a salary typed in is kept for the session. *)
Definition sidebar_salary (session : option float) (salary_input : float)
  : option float * list ui :=
  if truthy salary_input then
    (Some salary_input,
     [Success ("Salary recorded: R" +:+ format_2f salary_input)])
  else (session, []).

(** [if st.session_state.salary:] *)
Definition salary_set (session : option float) : option float :=
  match session with
  | Some salary => if truthy salary then Some salary else None
  | None => None
  end.

(** [sum(float(row[1]) for row in expenses)] *)
Definition amount (row : row) : result float := c ← index row 1; py_float c.

Definition total_of (expenses : list row) : result float :=
  xs ← traverse amount expenses; Ok (sum xs).

(** The same total where [sum] compensates. *)
Definition total_of_compensated (expenses : list row) : result float :=
  xs ← traverse amount expenses; Ok (sum_compensated xs).

(** "View Total" *)
Definition view_total (f : file) (session : option float) (r : nat)
  : result (list ui) :=
  let expenses := read_expenses f in
  total ← total_of expenses;
  let out := [Metric "Total Expenses" ("R" +:+ format_2f total)] in
  out ←
    match salary_set session with
    | Some salary =>
        q ← truediv total salary;
        let percent_used := fmul q (float_of_int 100) in
        Ok (out ++
            [ Write ("You've spent **" +:+ format_2f percent_used
                     +:+ "%** of your salary (R" +:+ format_2f salary +:+ ").");
              if fgt percent_used (float_of_int 70) then
                Warning "Over 70% of your income spent. Consider adjusting your expenses."
              else
                Success "You're within a safe spending range." ])
    | None =>
        Ok (out ++
            [Info "Please enter your salary in the sidebar to see usage insights."])
    end;
  tip ← show_random_tip r;
  Ok (out ++ [Info ("" +:+ tip)]).

(** "Add Expense": [date] is [datetime.now().strftime("%Y-%m-%d %H:%M")],
    [amount] the value of a number input with [min_value=0.0].  The row is
    appended to the file, which is created if need be. *)
Definition add_expense (f : file) (date : string) (amount : float)
    (category note : string) (clicked : bool) : file * list ui :=
  let out := [Subheader "Add a New Expense"] in
  if clicked then
    (Some (read_expenses f ++ [[Str date; Flt amount; Str category; Str note]]),
     out ++ [Success "Expense added!"])
  else (f, out).

(** "Delete Expense": [idx] is the number typed in, [clicked] the
    button.  The result is the store after the run and what was shown. *)
Definition delete_expense (f : file) (idx : nat) (clicked : bool)
  : result (file * list ui) :=
  let expenses := read_expenses f in
  match expenses with
  | [] => Ok (f, [Info "No expenses to delete."])
  | _ =>
      let out := imap WriteRow expenses in
      if clicked then
        '(removed, expenses) ← pop expenses idx;
        Ok (write_expenses expenses, out ++ [Deleted removed])
      else Ok (f, out)
  end.

(** "Edit Expense" *)
Definition edit_expense (f : file) (idx : nat)
    (new_amount new_category new_note : string) (clicked : bool)
  : result (file * list ui) :=
  let expenses := read_expenses f in
  match expenses with
  | [] => Ok (f, [Info "No expenses to edit."])
  | _ =>
      let out := imap WriteRow expenses in
      r ← index expenses idx;
      match r with
      | [date; amount; category; note] =>
          if clicked then
            valid ← is_valid_amount new_amount;
            if valid : bool then
              x ← float_of_string new_amount;
              expenses ← setitem expenses idx
                           [date; Flt x; Str new_category; Str new_note];
              Ok (write_expenses expenses, out ++ [Success "Expense updated."])
            else Ok (f, out ++ [Error "Invalid amount entered."])
          else Ok (f, out)
      | _ => Raise ValueError
      end
  end.

(** "Filter Expenses" *)
Inductive filter_type := ByCategory | ByDate.

Definition filter_by_category (expenses : list row) (category : string)
  : result (list row) :=
  select (fun e => c ← index e 2; l ← py_lower c;
                   Ok (String.eqb l (lower category))) expenses.

Definition filter_by_date (expenses : list row) (date : string)
  : result (list row) :=
  select (fun e => c ← index e 0; py_startswith c date) expenses.

Definition filter_expenses (f : file) (by_ : filter_type) (text : string)
  : result (list ui) :=
  let expenses := read_expenses f in
  filtered ←
    match by_ with
    | ByCategory => filter_by_category expenses text
    | ByDate => filter_by_date expenses text
    end;
  Ok [Table filtered].

(** "Sort Expenses" *)
Inductive sort_type := SortDate | SortAmount.

Definition sort_by_date (expenses : list row) : result (list row) :=
  sort dt_lt (fun x => c ← index x 0; py_strptime c) expenses.

Definition sort_by_amount (expenses : list row) : result (list row) :=
  sort flt (fun x => c ← index x 1; py_float c) expenses.

Definition sort_expenses (f : file) (by_ : sort_type) : result (list ui) :=
  let expenses := read_expenses f in
  expenses ←
    match by_ with
    | SortDate => sort_by_date expenses
    | SortAmount => sort_by_amount expenses
    end;
  Ok [Table expenses].

(** "Summary by Category".  [summary] is the [defaultdict(float)], its
    keys in the order they were first met. *)
Fixpoint add_at (summary : list (cell * float)) (k : cell) (x : float)
  : list (cell * float) :=
  match summary with
  | [] => [(k, fadd (S754_zero false) x)]
  | (k', v) :: rest =>
      if decide (k' = k) then (k', fadd v x) :: rest
      else (k', v) :: add_at rest k x
  end.

(** [for row in expenses: summary[row[2]] += float(row[1])] *)
Fixpoint by_category (summary : list (cell * float)) (expenses : list row)
  : result (list (cell * float)) :=
  match expenses with
  | [] => Ok summary
  | row :: rest =>
      k ← index row 2;
      x ← amount row;
      by_category (add_at summary k x) rest
  end.

Definition summary_by_category (f : file) : result (list ui) :=
  let expenses := read_expenses f in
  summary ← by_category [] expenses;
  Ok (map (fun '(category, total) =>
             WriteTotal category ("R" +:+ format_2f total)) summary).

(** "Financial Management Report" *)
Inductive time_range := ThisMonth | ThisYear | AllTime.

Definition time_range_text (t : time_range) : string :=
  match t with
  | ThisMonth => "This Month"
  | ThisYear => "This Year"
  | AllTime => "All Time"
  end.

Definition in_time_range (t : time_range) (now : datetime) (expenses : list row)
  : result (list row) :=
  match t with
  | ThisMonth =>
      select (fun e => c ← index e 0; d ← py_strptime c;
                       if month d =? month now then
                         c ← index e 0; d ← py_strptime c;
                         Ok (year d =? year now)
                       else Ok false) expenses
  | ThisYear =>
      select (fun e => c ← index e 0; d ← py_strptime c;
                       Ok (year d =? year now)) expenses
  | AllTime => Ok expenses
  end.

Definition financial_report (f : file) (session : option float)
    (t : time_range) (budget : float) (now : datetime) (r : nat)
  : result (list ui) :=
  let expenses := read_expenses f in
  match expenses with
  | [] => Ok [Info "No data to evaluate."]
  | _ =>
      filtered ← in_time_range t now expenses;
      total ← total_of filtered;
      let feedback := financial_feedback total (Some budget) in
      let out :=
        [ Subheader "Financial Report";
          Write ("**Total Spending (" +:+ time_range_text t +:+ ")**: R"
                 +:+ format_2f total);
          Info feedback ] in
      out ←
        match salary_set session with
        | Some salary =>
            q ← truediv total salary;
            let percent_used := fmul q (float_of_int 100) in
            Ok (out ++
                [ Write ("You've spent **" +:+ format_2f percent_used
                         +:+ "%** of your monthly salary (R"
                         +:+ format_2f salary +:+ ").");
                  if fgt percent_used (float_of_int 70) then
                    Warning "Spending exceeds 70% of income. Consider budgeting more strictly."
                  else
                    Success "You're within a responsible range." ])
        | None =>
            Ok (out ++
                [Info "Please enter your salary in the sidebar to evaluate your financial health."])
        end;
      tip ← tip_based_on_expenses r filtered;
      Ok (out ++ [Info ("" +:+ tip)])
  end.

End Tracker.

(* ================================================================== *)
(** * Properties *)

Import Py Tracker.


(** ** Vocabulary of the statements *)

(** The messages of [financial_feedback]. *)
Definition no_expenses_msg : string :=
  "No expenses recorded. Start tracking to understand your habits.".
Definition low_spend_msg : string :=
  "You're doing great! Keep up the low spending habits.".
Definition managing_msg : string :=
  "You're managing fairly well, but review any non-essentials.".
Definition stricter_msg : string :=
  "Consider budgeting more strictly and cutting excesses.".
Definition high_spend_msg : string :=
  "Warning: High spending! Analyze where most of your money is going.".
Definition exceeded_clause (budget : float) : string :=
  " You have exceeded your budget of R" +:+ format_2f budget
    +:+ ". Consider cutting back next month.".
Definition within_clause (budget : float) : string :=
  " You are within your budget of R" +:+ format_2f budget +:+ ". Well done!".

(** What is added to the tier message when a budget is supplied: nothing
    for a budget of zero, else one of the two clauses. *)
Definition budget_clause_appended (total budget : float) : Prop :=
  (feq budget (float_of_int 0) = true ->
   financial_feedback total (Some budget) = financial_feedback total None) /\
  (feq budget (float_of_int 0) = false ->
   financial_feedback total (Some budget) =
     financial_feedback total None
       +:+ (if fgt total budget then exceeded_clause budget
            else within_clause budget)).

(** [total / salary * 100] *)
Definition percent_of (total salary : float) : float :=
  fmul (SFdiv prec emax total salary) (float_of_int 100).

(** The session salary is absent, or zero. *)
Definition no_salary (session : option float) : Prop :=
  session = None \/ exists s, session = Some s /\ feq s (float_of_int 0) = true.

(** The two records of the specification's scenarios. *)
Definition food_row : row :=
  [Str "2024-01-05 10:00"; Str "500"; Str "Food"; Str ""].
Definition transport_row : row :=
  [Str "2024-01-10 09:00"; Str "800"; Str "Transport"; Str ""].
Definition rent_row : row :=
  [Str "2024-01-01 08:30"; Str "1000"; Str "Rent"; Str "January"].

(** A record: four cells, with text for the timestamp, the category and
    the note.  Every row the program writes has this shape. *)
Definition is_record (r : row) : bool :=
  match r with
  | [Str _; _; Str _; Str _] => true
  | _ => false
  end.

Definition records (expenses : list row) : Prop :=
  Forall (fun r => is_record r = true) expenses.

(** The category of [r] equals [key] when case is ignored. *)
Definition category_matches (key : string) (r : row) : bool :=
  match r !! 2%nat with
  | Some (Str c) => String.eqb (lower c) (lower key)
  | _ => false
  end.

(** [m] does not raise [ZeroDivisionError]. *)
Definition no_zero_division {A} (m : result A) : Prop :=
  m <> Raise ZeroDivisionError.

(** *** Sorted, stable rearrangements *)

(** Two neighbours of a list of keyed elements: the second key is not
    below the first. *)
Definition in_order {K A} (lt : K -> K -> bool) (p q : K * A) : Prop :=
  lt (fst q) (fst p) = false.

(** [p] pairs an element with its key, a valid one. *)
Definition has_key {K A} (key : A -> result K) (valid : K -> Prop) (p : K * A)
  : Prop :=
  key (snd p) = Ok (fst p) /\ valid (fst p).

(** The key of [a] is at most the key of [b]. *)
Definition key_le {K A} (key : A -> result K) (le : K -> K -> bool) (a b : A)
  : Prop :=
  exists x y, key a = Ok x /\ key b = Ok y /\ le x y = true.

(** The key of [a] equals [k]. *)
Definition key_in_class {K A} (key : A -> result K) (eqv : K -> K -> bool)
    (k : K) (a : A) : bool :=
  match key a with
  | Ok x => eqv x k
  | Raise _ => false
  end.

(** [out] is [l] sorted by [key]: a permutation of [l], non-decreasing in
    the key, the elements of equal key in the order they have in [l]. *)
Definition sorted_by {K A} (key : A -> result K) (le eqv : K -> K -> bool)
    (l out : list A) : Prop :=
  out ≡ₚ l /\
  Sorted (key_le key le) out /\
  forall k, List.filter (key_in_class key eqv k) out
            = List.filter (key_in_class key eqv k) l.

(** [datetime.strptime(row[0], "%Y-%m-%d %H:%M")], the key of the sort by
    date. *)
Definition timestamp (r : row) : result datetime := c ← index r 0; py_strptime c.

#[global] Instance datetime_eq_dec : EqDecision datetime.
Proof. solve_decision. Defined.

Definition dt_le (a b : datetime) : bool := negb (dt_lt b a).
Definition dt_eq (a b : datetime) : bool := bool_decide (a = b).

Definition timestamps_parse (expenses : list row) : Prop :=
  Forall (fun r => exists d, timestamp r = Ok d) expenses.

(** Every amount is read as a number, NaN apart. *)
Definition amounts_parse (expenses : list row) : Prop :=
  Forall (fun r => exists x, amount r = Ok x /\ is_nan x = false) expenses.

Definition sorts_by_date (expenses : list row) : Prop :=
  exists out, sort_by_date expenses = Ok out /\
              sorted_by timestamp dt_le dt_eq expenses out.

Definition sorts_by_amount (expenses : list row) : Prop :=
  exists out, sort_by_amount expenses = Ok out /\
              sorted_by amount fle feq expenses out.

(** A stored row whose amount is not a number. *)
Definition garbled_row : row :=
  [Str "2024-01-05 10:00"; Str "abc"; Str "Food"; Str ""].

(** *** Whole numbers as floats *)

(** [n * 2^j] *)
Definition shl (n : positive) (j : nat) : positive := Nat.iter j xO n.

(** The float that is the whole number [n], for [n] below [2^53]: the
    mantissa is [n] shifted to 53 bits. *)
Definition canon (n : positive) : float :=
  S754_finite false (shl n (Z.to_nat (53 - Zpos (digits2_pos n))))
    (Zpos (digits2_pos n) - 53).

(** *** Totals by category *)

(** [summary[k]], if [k] is a key. *)
Fixpoint lookup_key (k : cell) (summary : list (cell * float)) : option float :=
  match summary with
  | [] => None
  | (k', v) :: rest => if decide (k' = k) then Some v else lookup_key k rest
  end.

(** The category cell of [r] is exactly [k]. *)
Definition has_category (k : cell) (r : row) : bool :=
  bool_decide (r !! 2%nat = Some k).

Definition Zsum (ns : list Z) : Z := fold_right Z.add 0 ns.

(** The amounts of [expenses] are the whole numbers [ns], none negative. *)
Definition whole_amounts (expenses : list row) (ns : list Z) : Prop :=
  Forall2 (fun r n => 0 <= n /\ amount r = Ok (float_of_int n)) expenses ns.

(** The totals of the categories, added up in the order of the summary,
    give the total of all amounts. *)
Definition totals_add_up (expenses : list row) : Prop :=
  exists summary total,
    by_category [] expenses = Ok summary /\
    total_of expenses = Ok total /\
    sum (map snd summary) = total.

(** The same, where [sum] compensates (CPython 3.12 on). *)
Definition totals_add_up_compensated (expenses : list row) : Prop :=
  exists summary total,
    by_category [] expenses = Ok summary /\
    total_of_compensated expenses = Ok total /\
    sum_compensated (map snd summary) = total.

(** [0.0 + x1 + ... + xn], one addition after the other: the total that
    the loop of the summary builds with [+=]. *)
Definition added_in_order (xs : list float) : float :=
  fold_left fadd xs (S754_zero false).

(** Three records of 0.1, 0.2 and 0.6 in two categories. *)
Definition tenths : list row :=
  [ [Str "2024-03-01 09:00"; Str "0.1"; Str "Food"; Str ""];
    [Str "2024-03-02 09:00"; Str "0.2"; Str "Transport"; Str ""];
    [Str "2024-03-03 09:00"; Str "0.6"; Str "Food"; Str ""] ].

(** *** Numerals *)

(** A run of decimal digits. *)
Definition digits (ds : list ascii) : Prop := Forall (fun c => is_digit c = true) ds.

(** A non-negative decimal numeral: digits, then perhaps a point and
    more digits. *)
Definition decimal_numeral (s : string) : Prop :=
  exists ip fp,
    ip <> [] /\ digits ip /\ digits fp /\
    (list_ascii_of_string s = ip \/ list_ascii_of_string s = ip ++ "."%char :: fp).

(** [s] is made of ASCII characters. *)
Definition ascii_text (s : string) : Prop :=
  Forall (fun c => code c < 128) (list_ascii_of_string s).

(** [s] holds a decimal digit. *)
Definition has_digit (s : string) : Prop :=
  Exists (fun c => is_digit c = true) (list_ascii_of_string s).

(** An infinity or NaN. *)
Definition not_finite (x : float) : Prop :=
  match x with
  | S754_infinity _ | S754_nan => True
  | _ => False
  end.

(** *** Timestamps *)

(** A value a [datetime] can have, to the minute. *)
Definition is_datetime (d : datetime) : bool :=
  (1 <=? year d) && (year d <=? 9999) && (1 <=? month d) && (month d <=? 12)
  && (1 <=? day d) && (day d <=? days_in_month (year d) (month d))
  && (0 <=? hour d) && (hour d <=? 23) && (0 <=? minute d) && (minute d <=? 59).

(** *** Categories in the order they appear *)

(** The category cells of the rows, in order. *)
Definition categories (expenses : list row) : list cell :=
  omap (fun r => r !! 2%nat) expenses.

(** [ks] with only the first occurrence of each cell kept. *)
Fixpoint first_seen (ks : list cell) : list cell :=
  match ks with
  | [] => []
  | k :: ks' => k :: List.filter (fun k' => negb (bool_decide (k' = k))) (first_seen ks')
  end.

(** *** Time ranges *)

(** The timestamp of [r] falls in the year, in the month, of [now]. *)
Definition in_year (now : datetime) (r : row) : bool :=
  match timestamp r with
  | Ok d => year d =? year now
  | Raise _ => false
  end.

Definition in_month (now : datetime) (r : row) : bool :=
  match timestamp r with
  | Ok d => (month d =? month now) && (year d =? year now)
  | Raise _ => false
  end.

(** *** The sidebar over the runs of a session *)

(** The session salary after the script has run once for each value the
    salary input took. *)
Definition sidebar_runs (session : option float) (inputs : list float)
  : option float :=
  fold_left (fun s x => fst (sidebar_salary s x)) inputs session.

(** *** Rows the program can read back *)

(** A record whose timestamp and amount can both be read. *)
Definition sound_row (r : row) : Prop :=
  is_record r = true /\ (exists d, timestamp r = Ok d) /\ (exists x, amount r = Ok x).

Definition sound (expenses : list row) : Prop := Forall sound_row expenses.

(** ** Order of floats *)

Lemma SFcompare_antisym (x y : float) :
  SFcompare y x = option_map CompOpp (SFcompare x y).
Proof.
  destruct x as [[]|[]| |[] mx ex], y as [[]|[]| |[] my ey]; simpl; try reflexivity;
    rewrite (Z.compare_antisym ey ex);
    destruct (ey ?= ex); simpl; try reflexivity;
    rewrite (Pos.compare_cont_antisym mx my Eq); simpl;
    try rewrite CompOpp_involutive; reflexivity.
Qed.

Lemma flt_asym (x y : float) : flt x y = true -> flt y x = false.
Proof.
  unfold flt, SFltb. rewrite (SFcompare_antisym x y).
  destruct (SFcompare x y) as [[]|]; simpl; congruence.
Qed.

Lemma fle_not_flt (x y : float) : fle x y = true -> flt y x = false.
Proof.
  unfold fle, flt, SFleb, SFltb. rewrite (SFcompare_antisym x y).
  destruct (SFcompare x y) as [[]|]; simpl; congruence.
Qed.

Lemma feq_not_flt (x y : float) : feq x y = true -> flt y x = false.
Proof.
  unfold feq, flt, SFeqb, SFltb. rewrite (SFcompare_antisym x y).
  destruct (SFcompare x y) as [[]|]; simpl; congruence.
Qed.

Lemma feq_sym (x y : float) : feq x y = feq y x.
Proof.
  unfold feq, SFeqb. rewrite (SFcompare_antisym y x).
  destruct (SFcompare y x) as [[]|]; reflexivity.
Qed.

Lemma not_flt_fle (x y : float) :
  is_nan x = false -> is_nan y = false -> flt y x = false -> fle x y = true.
Proof.
  unfold fle, flt, SFleb, SFltb. rewrite (SFcompare_antisym x y).
  destruct x as [[]|[]| |[] mx ex], y as [[]|[]| |[] my ey]; simpl; try congruence;
    destruct (ex ?= ey); simpl; try congruence;
    destruct (Pos.compare_cont Eq mx my); simpl; congruence.
Qed.

Tactic Notation "float_cases" constr(x) ident(m) ident(e) :=
  destruct x as [[]|[]| |[] m e].

Lemma fle_flt_trans (x y z : float) :
  fle x y = true -> flt y z = true -> flt x z = true.
Proof.
  unfold fle, flt, SFleb, SFltb.
  float_cases x mx ex; float_cases y my ey; float_cases z mz ez;
    simpl; try congruence;
    change (Pos.compare_cont Eq) with Pos.compare;
    destruct (Z.compare_spec ex ey), (Z.compare_spec ey ez), (Z.compare_spec ex ez);
    try lia; simpl; try congruence;
    destruct (Pos.compare_spec mx my), (Pos.compare_spec my mz), (Pos.compare_spec mx mz);
    simpl; try congruence; lia.
Qed.

Lemma flt_fle_trans (x y z : float) :
  flt x y = true -> fle y z = true -> flt x z = true.
Proof.
  unfold fle, flt, SFleb, SFltb.
  float_cases x mx ex; float_cases y my ey; float_cases z mz ez;
    simpl; try congruence;
    change (Pos.compare_cont Eq) with Pos.compare;
    destruct (Z.compare_spec ex ey), (Z.compare_spec ey ez), (Z.compare_spec ex ez);
    try lia; simpl; try congruence;
    destruct (Pos.compare_spec mx my), (Pos.compare_spec my mz), (Pos.compare_spec mx mz);
    simpl; try congruence; lia.
Qed.

Lemma fle_trans (x y z : float) :
  fle x y = true -> fle y z = true -> fle x z = true.
Proof.
  unfold fle, SFleb.
  float_cases x mx ex; float_cases y my ey; float_cases z mz ez;
    simpl; try congruence;
    change (Pos.compare_cont Eq) with Pos.compare;
    destruct (Z.compare_spec ex ey), (Z.compare_spec ey ez), (Z.compare_spec ex ez);
    try lia; simpl; try congruence;
    destruct (Pos.compare_spec mx my), (Pos.compare_spec my mz), (Pos.compare_spec mx mz);
    simpl; try congruence; lia.
Qed.

Lemma flt_not_feq (x y : float) : flt x y = true -> feq x y = false.
Proof.
  unfold flt, feq, SFltb, SFeqb. destruct (SFcompare x y) as [[]|]; congruence.
Qed.

Lemma above_not_zero (c t : float) :
  flt (float_of_int 0) c = true -> fle c t = true -> feq t (float_of_int 0) = false.
Proof.
  intros H0 Hc. rewrite feq_sym. apply flt_not_feq.
  exact (flt_fle_trans _ _ _ H0 Hc).
Qed.

Lemma above_not_below (c c' t : float) :
  fle c' c = true -> fle c t = true -> flt t c' = false.
Proof.
  intros Hcc Hc. apply fle_not_flt. exact (fle_trans _ _ _ Hcc Hc).
Qed.

(** ** The feedback tiers *)

(** C1. With no budget, [financial_feedback] answers the "No expenses
    recorded" message exactly when the total equals 0 (as [==] compares
    floats); the low-spend praise
    for 0 < total < 1000; the "managing fairly well" caution for
    1000 <= total < 5000; the "budgeting more strictly" warning for
    5000 <= total < 10000; the high-spending warning from 10000 on. *)
Theorem financial_feedback_tiers (total : float) :
  (financial_feedback total None = no_expenses_msg
   <-> feq total (float_of_int 0) = true) /\
  (flt (float_of_int 0) total = true -> flt total (float_of_int 1000) = true ->
   financial_feedback total None = low_spend_msg) /\
  (fle (float_of_int 1000) total = true -> flt total (float_of_int 5000) = true ->
   financial_feedback total None = managing_msg) /\
  (fle (float_of_int 5000) total = true -> flt total (float_of_int 10000) = true ->
   financial_feedback total None = stricter_msg) /\
  (fle (float_of_int 10000) total = true ->
   financial_feedback total None = high_spend_msg).
Proof.
  unfold financial_feedback. repeat split.
  - destruct (feq total (float_of_int 0)); [reflexivity|].
    repeat destruct (flt total _); discriminate.
  - intros ->. reflexivity.
  - intros H0 H1. rewrite feq_sym, (flt_not_feq _ _ H0), H1. reflexivity.
  - intros H0 H1.
    rewrite (above_not_zero (float_of_int 1000) total eq_refl H0).
    rewrite (fle_not_flt _ _ H0), H1. reflexivity.
  - intros H0 H1.
    rewrite (above_not_zero (float_of_int 5000) total eq_refl H0).
    rewrite (above_not_below (float_of_int 5000) (float_of_int 1000) total eq_refl H0).
    rewrite (fle_not_flt _ _ H0), H1. reflexivity.
  - intros H0.
    rewrite (above_not_zero (float_of_int 10000) total eq_refl H0).
    rewrite (above_not_below (float_of_int 10000) (float_of_int 1000) total eq_refl H0).
    rewrite (above_not_below (float_of_int 10000) (float_of_int 5000) total eq_refl H0).
    rewrite (fle_not_flt _ _ H0). reflexivity.
Qed.

Lemma financial_feedback_tiers_witness :
  financial_feedback (float_of_int 0) None = no_expenses_msg /\
  financial_feedback (float_of_int 999) None = low_spend_msg /\
  financial_feedback (float_of_int 1000) None = managing_msg /\
  financial_feedback (float_of_int 5000) None = stricter_msg /\
  financial_feedback (float_of_int 10000) None = high_spend_msg.
Proof.
  pose proof (financial_feedback_tiers (float_of_int 0)) as (H0 & _).
  pose proof (financial_feedback_tiers (float_of_int 999)) as (_ & H1 & _).
  pose proof (financial_feedback_tiers (float_of_int 1000)) as (_ & _ & H2 & _).
  pose proof (financial_feedback_tiers (float_of_int 5000)) as (_ & _ & _ & H3 & _).
  pose proof (financial_feedback_tiers (float_of_int 10000)) as (_ & _ & _ & _ & H4).
  exact (conj (proj2 H0 eq_refl)
           (conj (H1 eq_refl eq_refl)
              (conj (H2 eq_refl eq_refl) (conj (H3 eq_refl eq_refl) (H4 eq_refl))))).
Defined.

(** C2, as stated, fails for a total of zero: the "No expenses recorded"
    message is returned before the budget is looked at, so no clause is
    appended for a budget of 500. *)
Lemma budget_clause_zero_total :
  ~ budget_clause_appended (float_of_int 0) (float_of_int 500).
Proof.
  intros [_ H]. specialize (H eq_refl). vm_compute in H. discriminate H.
Qed.

(** C2, amended.  For a total other than zero: a budget of exactly 0 leaves
    the tier message alone (zero is falsy); a budget other than 0 appends
    the "exceeded your budget" clause exactly when total > budget and the
    "within your budget" clause otherwise.  For a total of zero the "No
    expenses recorded" message is returned alone, whatever the budget. *)
Theorem financial_feedback_budget (total budget : float) :
  (feq total (float_of_int 0) = false -> budget_clause_appended total budget) /\
  (feq total (float_of_int 0) = true ->
   financial_feedback total (Some budget) = no_expenses_msg).
Proof.
  unfold budget_clause_appended, financial_feedback, truthy. split.
  - intros ->. split; intros ->; simpl; [reflexivity|].
    destruct (fgt total budget); reflexivity.
  - intros ->. reflexivity.
Qed.

Lemma financial_feedback_budget_witness :
  budget_clause_appended (float_of_int 1300) (float_of_int 1000) /\
  financial_feedback (float_of_int 0) (Some (float_of_int 1000)) = no_expenses_msg.
Proof.
  exact (conj
           (proj1 (financial_feedback_budget (float_of_int 1300) (float_of_int 1000))
              eq_refl)
           (proj2 (financial_feedback_budget (float_of_int 0) (float_of_int 1000))
              eq_refl)).
Defined.

(** The scenario of the specification: 500 + 800 against a budget of 1000. *)
Example feedback_over_budget :
  financial_feedback (float_of_int 1300) (Some (float_of_int 1000)) =
    managing_msg +:+ " You have exceeded your budget of R1000.00. Consider cutting back next month.".
Proof. reflexivity. Qed.

(** ** The error monad *)

Lemma bind_Ok {A B} (a : A) (k : A -> result B) : (Ok a ≫= k) = k a.
Proof. reflexivity. Qed.

Lemma bind_Raise {A B} (e : exn) (k : A -> result B) : (Raise e ≫= k) = Raise e.
Proof. reflexivity. Qed.

Lemma bind_inv_Ok {A B} (m : result A) (k : A -> result B) (b : B) :
  (m ≫= k) = Ok b -> exists a, m = Ok a /\ k a = Ok b.
Proof. destruct m as [a|e]; [eauto|discriminate]. Qed.

Lemma nzd_Ok {A} (a : A) : no_zero_division (Ok a).
Proof. discriminate. Qed.

Lemma nzd_bind {A B} (m : result A) (k : A -> result B) :
  no_zero_division m -> (forall a, no_zero_division (k a)) ->
  no_zero_division (m ≫= k).
Proof.
  unfold no_zero_division. destruct m as [a|e]; simpl; [auto|].
  intros H _ [= ->]. now apply H.
Qed.

Lemma nzd_of_option {A} (e : exn) (o : option A) :
  e <> ZeroDivisionError -> no_zero_division (of_option e o).
Proof. destruct o; simpl; [discriminate|]. intros H [= ->]. now apply H. Qed.

Lemma nzd_index {A} (l : list A) (i : nat) : no_zero_division (index l i).
Proof. now apply nzd_of_option. Qed.

Lemma nzd_float_of_string (s : string) : no_zero_division (float_of_string s).
Proof. now apply nzd_of_option. Qed.

Lemma nzd_py_float (c : cell) : no_zero_division (py_float c).
Proof. destruct c; [apply nzd_float_of_string | apply nzd_Ok]. Qed.

Lemma nzd_strptime (s : string) : no_zero_division (strptime s).
Proof.
  unfold strptime. destruct (re_timestamp _) as [|[dt [|]] ?]; try discriminate.
  destruct (_ && _); discriminate.
Qed.

Lemma nzd_py_strptime (c : cell) : no_zero_division (py_strptime c).
Proof. destruct c; [apply nzd_strptime | discriminate]. Qed.

Lemma nzd_traverse {A B} (f : A -> result B) (l : list A) :
  (forall x, no_zero_division (f x)) -> no_zero_division (traverse f l).
Proof.
  intros Hf. induction l as [|x l IH]; simpl; [apply nzd_Ok|].
  apply nzd_bind; [apply Hf|]. intros y. apply nzd_bind; [exact IH|].
  intros ys. apply nzd_Ok.
Qed.

Lemma nzd_select {A} (p : A -> result bool) (l : list A) :
  (forall x, no_zero_division (p x)) -> no_zero_division (select p l).
Proof.
  intros Hp. induction l as [|x l IH]; simpl; [apply nzd_Ok|].
  apply nzd_bind; [apply Hp|]. intros y. apply nzd_bind; [exact IH|].
  intros ys. apply nzd_Ok.
Qed.

Lemma nzd_amount (r : row) : no_zero_division (amount r).
Proof. apply nzd_bind; [apply nzd_index|]. apply nzd_py_float. Qed.

Lemma nzd_total_of (expenses : list row) : no_zero_division (total_of expenses).
Proof.
  apply nzd_bind; [apply nzd_traverse, nzd_amount|]. intros; apply nzd_Ok.
Qed.

Lemma nzd_in_time_range t now expenses :
  no_zero_division (in_time_range t now expenses).
Proof.
  destruct t; simpl; [| |apply nzd_Ok]; apply nzd_select; intros e;
    (apply nzd_bind; [apply nzd_index|]); intros c;
    (apply nzd_bind; [apply nzd_py_strptime|]); intros d; [|apply nzd_Ok].
  destruct (_ =? _); [|apply nzd_Ok].
  apply nzd_bind; [apply nzd_index|]. intros c'.
  apply nzd_bind; [apply nzd_py_strptime|]. intros; apply nzd_Ok.
Qed.

Lemma salary_set_truthy (session : option float) (s : float) :
  salary_set session = Some s -> feq s (float_of_int 0) = false.
Proof.
  destruct session as [s'|]; simpl; [|discriminate].
  unfold truthy. destruct (feq s' _) eqn:E; simpl; [discriminate|].
  now intros [= <-].
Qed.

Lemma salary_set_none (session : option float) :
  no_salary session -> salary_set session = None.
Proof.
  intros [->|(s & -> & H)]; [reflexivity|].
  unfold salary_set, truthy. now rewrite H.
Qed.

Lemma salary_set_some (s : float) :
  feq s (float_of_int 0) = false -> salary_set (Some s) = Some s.
Proof. intros H. unfold salary_set, truthy. now rewrite H. Qed.

Lemma truediv_nonzero (x s : float) :
  feq s (float_of_int 0) = false -> truediv x s = Ok (SFdiv prec emax x s).
Proof. intros H. unfold truediv. now rewrite H. Qed.

(** ** Percent of salary *)

(** C3.  With the session salary absent or zero the percent-of-salary
    block is skipped in both views: the salary hint is shown instead and no
    run raises [ZeroDivisionError].  With a salary other than zero the
    percentage shown is [total / salary * 100], the over-70% warning is
    shown exactly when it exceeds 70 and the reassurance otherwise; a salary
    of 2000 and a total of 1500 give 75.00% and the warning. *)
Theorem percent_of_salary :
  (forall f session r, no_zero_division (view_total f session r)) /\
  (forall f session t budget now r,
     no_zero_division (financial_report f session t budget now r)) /\
  (forall f session r total,
     no_salary session -> total_of (read_expenses f) = Ok total ->
     view_total f session r =
       tip ← show_random_tip r;
       Ok [ Metric "Total Expenses" ("R" +:+ format_2f total);
            Info "Please enter your salary in the sidebar to see usage insights.";
            Info tip ]) /\
  (forall f session t budget now r filtered total,
     no_salary session -> read_expenses f <> [] ->
     in_time_range t now (read_expenses f) = Ok filtered ->
     total_of filtered = Ok total ->
     financial_report f session t budget now r =
       tip ← tip_based_on_expenses r filtered;
       Ok [ Subheader "Financial Report";
            Write ("**Total Spending (" +:+ time_range_text t +:+ ")**: R"
                   +:+ format_2f total);
            Info (financial_feedback total (Some budget));
            Info "Please enter your salary in the sidebar to evaluate your financial health.";
            Info tip ]) /\
  (forall f salary r total,
     feq salary (float_of_int 0) = false -> total_of (read_expenses f) = Ok total ->
     view_total f (Some salary) r =
       tip ← show_random_tip r;
       Ok [ Metric "Total Expenses" ("R" +:+ format_2f total);
            Write ("You've spent **" +:+ format_2f (percent_of total salary)
                   +:+ "%** of your salary (R" +:+ format_2f salary +:+ ").");
            (if fgt (percent_of total salary) (float_of_int 70) then
               Warning "Over 70% of your income spent. Consider adjusting your expenses."
             else Success "You're within a safe spending range.");
            Info tip ]) /\
  (forall f salary t budget now r filtered total,
     feq salary (float_of_int 0) = false -> read_expenses f <> [] ->
     in_time_range t now (read_expenses f) = Ok filtered ->
     total_of filtered = Ok total ->
     financial_report f (Some salary) t budget now r =
       tip ← tip_based_on_expenses r filtered;
       Ok [ Subheader "Financial Report";
            Write ("**Total Spending (" +:+ time_range_text t +:+ ")**: R"
                   +:+ format_2f total);
            Info (financial_feedback total (Some budget));
            Write ("You've spent **" +:+ format_2f (percent_of total salary)
                   +:+ "%** of your monthly salary (R" +:+ format_2f salary +:+ ").");
            (if fgt (percent_of total salary) (float_of_int 70) then
               Warning "Spending exceeds 70% of income. Consider budgeting more strictly."
             else Success "You're within a responsible range.");
            Info tip ]) /\
  (percent_of (float_of_int 1500) (float_of_int 2000) = float_of_int 75 /\
   format_2f (percent_of (float_of_int 1500) (float_of_int 2000)) = "75.00" /\
   fgt (percent_of (float_of_int 1500) (float_of_int 2000)) (float_of_int 70) = true).
Proof.
  split; [|split; [|split; [|split; [|split; [|split]]]]].
  - intros f session r. unfold view_total.
    apply nzd_bind; [apply nzd_total_of|]. intros total.
    apply nzd_bind.
    + destruct (salary_set session) as [s|] eqn:E; [|apply nzd_Ok].
      rewrite (truediv_nonzero _ _ (salary_set_truthy _ _ E)). apply nzd_Ok.
    + intros out. apply nzd_bind; [apply nzd_index|]. intros; apply nzd_Ok.
  - intros f session t budget now r. unfold financial_report.
    destruct (read_expenses f) as [|e es]; [apply nzd_Ok|].
    apply nzd_bind; [apply nzd_in_time_range|]. intros filtered.
    apply nzd_bind; [apply nzd_total_of|]. intros total.
    apply nzd_bind.
    + destruct (salary_set session) as [s|] eqn:E; [|apply nzd_Ok].
      rewrite (truediv_nonzero _ _ (salary_set_truthy _ _ E)). apply nzd_Ok.
    + intros out. apply nzd_bind; [|intros; apply nzd_Ok].
      unfold tip_based_on_expenses. destruct filtered; [apply nzd_Ok|apply nzd_index].
  - intros f session r total Hs Ht. unfold view_total.
    rewrite Ht, (salary_set_none _ Hs). reflexivity.
  - intros f session t budget now r filtered total Hs Hne Hf Ht.
    unfold financial_report. destruct (read_expenses f) as [|e es]; [congruence|].
    rewrite Hf, bind_Ok, Ht, (salary_set_none _ Hs). reflexivity.
  - intros f salary r total Hs Ht. unfold view_total.
    rewrite Ht, (salary_set_some _ Hs), bind_Ok, (truediv_nonzero _ _ Hs). reflexivity.
  - intros f salary t budget now r filtered total Hs Hne Hf Ht.
    unfold financial_report. destruct (read_expenses f) as [|e es]; [congruence|].
    rewrite Hf, bind_Ok, Ht, (salary_set_some _ Hs), bind_Ok, (truediv_nonzero _ _ Hs).
    reflexivity.
  - vm_compute. auto.
Qed.

Lemma percent_of_salary_witness :
  view_total (Some [food_row; rent_row]) (Some (float_of_int 2000)) 3 =
    Ok [ Metric "Total Expenses" "R1500.00";
         Write "You've spent **75.00%** of your salary (R2000.00).";
         Warning "Over 70% of your income spent. Consider adjusting your expenses.";
         Info "Try to save at least 10% of your monthly income." ] /\
  view_total (Some [food_row; rent_row]) (Some (float_of_int 0)) 3 =
    Ok [ Metric "Total Expenses" "R1500.00";
         Info "Please enter your salary in the sidebar to see usage insights.";
         Info "Try to save at least 10% of your monthly income." ].
Proof.
  pose proof percent_of_salary as (_ & _ & Hnone & _ & Hsome & _).
  split.
  - exact (Hsome (Some [food_row; rent_row]) (float_of_int 2000) 3%nat
             (float_of_int 1500) eq_refl eq_refl).
  - exact (Hnone (Some [food_row; rent_row]) (Some (float_of_int 0)) 3%nat
             (float_of_int 1500)
             (or_intror (ex_intro _ (float_of_int 0) (conj eq_refl eq_refl)))
             eq_refl).
Defined.

(** ** Deleting and editing a record *)

(** C5.  Deleting position [i] of a non-empty store and reading the store
    again gives one record fewer; the record removed is the one that was at
    position [i]; the records before it keep their place and those after it
    move up by one, unchanged. *)
Theorem delete_expense_removes (f : file) (i : nat) :
  (i < length (read_expenses f))%nat ->
  exists removed f',
    delete_expense f i true =
      Ok (f', imap WriteRow (read_expenses f) ++ [Deleted removed]) /\
    read_expenses f !! i = Some removed /\
    length (read_expenses f') = (length (read_expenses f) - 1)%nat /\
    read_expenses f' = take i (read_expenses f) ++ drop (S i) (read_expenses f) /\
    (forall j, (j < i)%nat -> read_expenses f' !! j = read_expenses f !! j) /\
    (forall j, (i <= j)%nat -> read_expenses f' !! j = read_expenses f !! S j).
Proof.
  intros Hi. unfold delete_expense.
  destruct (lookup_lt_is_Some_2 _ _ Hi) as [removed Hr].
  exists removed, (Some (delete i (read_expenses f))).
  destruct (read_expenses f) as [|e es] eqn:E; [simpl in Hi; lia|].
  unfold pop, index. rewrite Hr. simpl read_expenses.
  repeat split.
  - rewrite length_delete by eauto. reflexivity.
  - apply delete_take_drop.
  - intros j Hj. now apply list_lookup_delete_lt.
  - intros j Hj. now apply list_lookup_delete_ge.
Qed.

(** The scenario of the specification: position 0 of a store of two. *)
Lemma delete_expense_removes_witness :
  exists removed f',
    delete_expense (Some [food_row; transport_row]) 0 true =
      Ok (f', imap WriteRow [food_row; transport_row] ++ [Deleted removed]) /\
    [food_row; transport_row] !! 0%nat = Some removed /\
    length (read_expenses f') = 1%nat /\
    read_expenses f' = [transport_row] /\
    (forall j, (j < 0)%nat -> read_expenses f' !! j = [food_row; transport_row] !! j) /\
    (forall j, (0 <= j)%nat -> read_expenses f' !! j = [food_row; transport_row] !! S j).
Proof.
  apply (delete_expense_removes (Some [food_row; transport_row]) 0). simpl. lia.
Defined.

(** C4.  Saving an edit of position [i] with a valid amount writes a store
    whose record at [i] has the new amount, category and note and the
    timestamp it had, every other position holding the record it held;
    saving with an invalid amount leaves the store as it was. *)
Theorem edit_expense_writes (f : file) (i : nat) (date amount category note : cell)
    (new_amount new_category new_note : string) :
  read_expenses f !! i = Some [date; amount; category; note] ->
  (is_valid_amount new_amount = Ok true ->
   exists x f',
     float_of_string new_amount = Ok x /\
     edit_expense f i new_amount new_category new_note true =
       Ok (f', imap WriteRow (read_expenses f) ++ [Success "Expense updated."]) /\
     read_expenses f' !! i = Some [date; Flt x; Str new_category; Str new_note] /\
     length (read_expenses f') = length (read_expenses f) /\
     (forall j, j <> i -> read_expenses f' !! j = read_expenses f !! j)) /\
  (is_valid_amount new_amount = Ok false ->
   edit_expense f i new_amount new_category new_note true =
     Ok (f, imap WriteRow (read_expenses f) ++ [Error "Invalid amount entered."])).
Proof.
  intros Hr. pose proof (lookup_lt_Some _ _ _ Hr) as Hi.
  assert (Hidx : index (read_expenses f) i = Ok [date; amount; category; note])
    by exact (f_equal (of_option IndexError) Hr).
  unfold edit_expense.
  destruct (read_expenses f) as [|e es] eqn:E; [discriminate|].
  rewrite Hidx, bind_Ok.
  split; intros Hv; rewrite Hv, bind_Ok; [|reflexivity].
  unfold is_valid_amount in Hv.
  destruct (float_of_string new_amount) as [x|[]] eqn:Hx; try discriminate.
  exists x, (Some (<[i := [date; Flt x; Str new_category; Str new_note]]> (e :: es))).
  split; [reflexivity|]. rewrite bind_Ok. unfold setitem.
  destruct (decide (i < length (e :: es))%nat) as [_|Hn]; [|contradiction].
  split; [reflexivity|]. simpl read_expenses. split; [|split].
  - now apply list_lookup_insert_eq.
  - apply length_insert.
  - intros j Hj. apply list_lookup_insert_ne. congruence.
Qed.

Lemma edit_expense_writes_witness :
  (is_valid_amount "750.5" = Ok true ->
   exists x f',
     float_of_string "750.5" = Ok x /\
     edit_expense (Some [food_row; transport_row]) 1 "750.5" "Bus" "monthly" true =
       Ok (f', imap WriteRow [food_row; transport_row] ++ [Success "Expense updated."]) /\
     read_expenses f' !! 1%nat =
       Some [Str "2024-01-10 09:00"; Flt x; Str "Bus"; Str "monthly"] /\
     length (read_expenses f') = 2%nat /\
     (forall j, j <> 1%nat -> read_expenses f' !! j = [food_row; transport_row] !! j)) /\
  (is_valid_amount "750.5" = Ok false ->
   edit_expense (Some [food_row; transport_row]) 1 "750.5" "Bus" "monthly" true =
     Ok (Some [food_row; transport_row],
         imap WriteRow [food_row; transport_row] ++ [Error "Invalid amount entered."])).
Proof.
  exact (edit_expense_writes (Some [food_row; transport_row]) 1
           (Str "2024-01-10 09:00") (Str "800") (Str "Transport") (Str "")
           "750.5" "Bus" "monthly" eq_refl).
Defined.

(** ** Filters *)

Lemma select_filter {A} (p : A -> result bool) (q : A -> bool) (l : list A) :
  Forall (fun x => p x = Ok (q x)) l -> select p l = Ok (List.filter q l).
Proof.
  induction 1 as [|x l Hx _ IH]; simpl; [reflexivity|].
  rewrite Hx, bind_Ok, IH, bind_Ok. now destruct (q x).
Qed.

Lemma filter_filter_same {A} (q : A -> bool) (l : list A) :
  List.filter q (List.filter q l) = List.filter q l.
Proof.
  induction l as [|x l IH]; simpl; [reflexivity|].
  destruct (q x) eqn:E; simpl; [rewrite E; f_equal|]; exact IH.
Qed.

Lemma records_filter (q : row -> bool) (expenses : list row) :
  records expenses -> records (List.filter q expenses).
Proof.
  unfold records. induction 1 as [|x l Hx _ IH]; simpl; [constructor|].
  destruct (q x); [constructor|]; assumption.
Qed.

Lemma category_test_record (key : string) (r : row) :
  is_record r = true ->
  (c ← index r 2; l ← py_lower c; Ok (String.eqb l (lower key)))
  = Ok (category_matches key r).
Proof.
  destruct r as [|[d|] [|a [|[c|] [|[n|] [|]]]]]; try discriminate. reflexivity.
Qed.

(** C8.  On a list of records, filtering by category keeps exactly the
    records whose category equals the key when case is ignored, in their
    order; filtering the result again with the same key changes nothing. *)
Theorem filter_by_category_exact (expenses : list row) (key : string) :
  records expenses ->
  filter_by_category expenses key = Ok (List.filter (category_matches key) expenses) /\
  filter_by_category (List.filter (category_matches key) expenses) key
  = Ok (List.filter (category_matches key) expenses).
Proof.
  intros Hrec.
  assert (Hsel : forall l, records l ->
            filter_by_category l key = Ok (List.filter (category_matches key) l)).
  { intros l Hl. apply select_filter.
    eapply Forall_impl; [exact Hl|]. intros r Hr. now apply category_test_record. }
  split; [now apply Hsel|].
  rewrite Hsel by now apply records_filter.
  now rewrite filter_filter_same.
Qed.

Lemma filter_by_category_exact_witness :
  filter_by_category [food_row; transport_row; rent_row] "FOOD" = Ok [food_row] /\
  filter_by_category [food_row] "FOOD" = Ok [food_row].
Proof.
  apply (filter_by_category_exact [food_row; transport_row; rent_row] "FOOD").
  repeat constructor.
Defined.

(** C10.  On a list of records, the date filter with the empty prefix
    returns the whole list, unchanged: every timestamp starts with the
    empty string.  A blank date input shows every record. *)
Theorem filter_by_date_blank (expenses : list row) :
  records expenses ->
  filter_by_date expenses "" = Ok expenses /\
  filter_expenses (Some expenses) ByDate "" = Ok [Table expenses].
Proof.
  intros H.
  assert (Hf : filter_by_date expenses "" = Ok expenses).
  { unfold records in H. induction H as [|r l Hr _ IH]; [reflexivity|].
    unfold filter_by_date in *. simpl. rewrite IH.
    destruct r as [|[d|] [|a [|[c|] [|[n|] [|]]]]]; try discriminate.
    simpl. unfold startswith. now destruct d. }
  split; [exact Hf|]. unfold filter_expenses. simpl read_expenses. now rewrite Hf.
Qed.

Lemma filter_by_date_blank_witness :
  filter_by_date [food_row; transport_row; rent_row] ""
  = Ok [food_row; transport_row; rent_row] /\
  filter_expenses (Some [food_row; transport_row; rent_row]) ByDate ""
  = Ok [Table [food_row; transport_row; rent_row]].
Proof.
  apply (filter_by_date_blank [food_row; transport_row; rent_row]).
  repeat constructor.
Defined.

(** ** Sorting *)

Section SortFacts.
Context {K A : Type} (lt le eqv : K -> K -> bool) (valid : K -> Prop).
Context (key : A -> result K).

Hypothesis lt_asym : forall a b, lt a b = true -> lt b a = false.
Hypothesis not_lt_le :
  forall a b, valid a -> valid b -> lt b a = false -> le a b = true.
Hypothesis eqv_not_lt :
  forall a b k, eqv a k = true -> eqv b k = true -> lt a b = false.

Local Abbreviation ordered := (in_order lt).
Local Abbreviation keyed_ok := (has_key key valid).
Local Abbreviation key_le := (key_le key le).
Local Abbreviation key_in_class := (key_in_class key eqv).

Lemma insert_perm (x : K * A) (l : list (K * A)) : insert lt x l ≡ₚ x :: l.
Proof.
  induction l as [|y l IH]; simpl; [reflexivity|].
  destruct (lt (fst y) (fst x)); [|reflexivity].
  rewrite IH. apply Permutation_swap.
Qed.

Lemma isort_perm (l : list (K * A)) : isort lt l ≡ₚ l.
Proof.
  induction l as [|x l IH]; simpl; [reflexivity|].
  now rewrite insert_perm, IH.
Qed.

Lemma insert_HdRel (y x : K * A) (l : list (K * A)) :
  HdRel ordered y l -> ordered y x -> HdRel ordered y (insert lt x l).
Proof.
  intros Hl Hx. destruct l as [|z l]; simpl; [now constructor|].
  destruct (lt (fst z) (fst x)); constructor; [|exact Hx].
  now inversion Hl.
Qed.

Lemma insert_sorted (x : K * A) (l : list (K * A)) :
  Sorted ordered l -> Sorted ordered (insert lt x l).
Proof.
  induction 1 as [|y l Hs IH Hd]; simpl; [repeat constructor|].
  destruct (lt (fst y) (fst x)) eqn:E.
  - constructor; [exact IH|]. apply insert_HdRel; [exact Hd|].
    now apply lt_asym.
  - constructor; [now constructor|]. constructor. exact E.
Qed.

Lemma isort_sorted (l : list (K * A)) : Sorted ordered (isort lt l).
Proof.
  induction l as [|x l IH]; simpl; [constructor|]. now apply insert_sorted.
Qed.

(** Inserting does not move an element past one of the same class. *)
Lemma insert_filter (k : K) (x : K * A) (l : list (K * A)) :
  List.filter (fun p => eqv (fst p) k) (insert lt x l)
  = List.filter (fun p => eqv (fst p) k) (x :: l).
Proof.
  induction l as [|y l IH]; [reflexivity|].
  simpl insert. destruct (lt (fst y) (fst x)) eqn:E; [|reflexivity].
  simpl in *. rewrite IH.
  destruct (eqv (fst y) k) eqn:Ey, (eqv (fst x) k) eqn:Ex; try reflexivity.
  rewrite (eqv_not_lt _ _ _ Ey Ex) in E. discriminate.
Qed.

Lemma isort_stable (k : K) (l : list (K * A)) :
  List.filter (fun p => eqv (fst p) k) (isort lt l)
  = List.filter (fun p => eqv (fst p) k) l.
Proof.
  induction l as [|x l IH]; [reflexivity|].
  simpl isort. rewrite insert_filter. simpl. now rewrite IH.
Qed.

Lemma keyed_total (l : list A) :
  Forall (fun x => exists k, key x = Ok k /\ valid k) l ->
  exists kl, keyed key l = Ok kl /\ map snd kl = l /\ Forall keyed_ok kl.
Proof.
  induction 1 as [|x l (k & Hk & Hv) _ (kl & Hkl & Hm & Hf)].
  - exists []. repeat split. constructor.
  - exists ((k, x) :: kl). unfold keyed in *. simpl.
    rewrite Hk, !bind_Ok, Hkl, bind_Ok. repeat split.
    + simpl. now rewrite Hm.
    + constructor; [now split|exact Hf].
Qed.

Lemma sorted_rows (kl : list (K * A)) :
  Forall keyed_ok kl -> Sorted ordered kl -> Sorted key_le (map snd kl).
Proof.
  intros Hf Hs. induction Hs as [|p l Hs IH Hd]; simpl; [constructor|].
  inversion Hf as [|? ? [Hp Hvp] Hfl]; subst.
  constructor; [now apply IH|].
  destruct Hd as [|q l Hpq]; simpl; constructor.
  inversion Hfl as [|? ? [Hq Hvq] _]; subst.
  exists (fst p), (fst q). repeat split; try assumption.
  now apply not_lt_le.
Qed.

Lemma class_rows (k : K) (kl : list (K * A)) :
  Forall keyed_ok kl ->
  List.filter (key_in_class k) (map snd kl)
  = map snd (List.filter (fun p => eqv (fst p) k) kl).
Proof.
  induction 1 as [|p l [Hp _] _ IH]; [reflexivity|].
  simpl. unfold key_in_class at 1. rewrite Hp, IH.
  now destruct (eqv (fst p) k).
Qed.

(** [l.sort(key=...)] on keys that are all computed and valid: the result
    is a rearrangement of [l], in non-descending order of key, the
    elements of one class of keys in the order they had. *)
Lemma sort_spec (l : list A) :
  Forall (fun x => exists k, key x = Ok k /\ valid k) l ->
  exists out, sort lt key l = Ok out /\ sorted_by key le eqv l out.
Proof.
  intros Hl. destruct (keyed_total l Hl) as (kl & Hkl & Hm & Hf).
  exists (map snd (isort lt kl)). unfold sort. rewrite Hkl, bind_Ok.
  assert (Hf' : Forall keyed_ok (isort lt kl)).
  { now rewrite isort_perm. }
  repeat split.
  - rewrite <- Hm. apply Permutation_map, isort_perm.
  - apply sorted_rows; [exact Hf'|apply isort_sorted].
  - intros k. rewrite class_rows by exact Hf'.
    rewrite isort_stable, <- class_rows by exact Hf. now rewrite Hm.
Qed.
End SortFacts.

Lemma feq_fle (x y : float) : feq x y = true -> fle x y = true /\ fle y x = true.
Proof.
  unfold feq, fle, SFeqb, SFleb. rewrite (SFcompare_antisym x y).
  destruct (SFcompare x y) as [[]|]; simpl; intuition congruence.
Qed.

Lemma feq_class_not_flt (a b k : float) :
  feq a k = true -> feq b k = true -> flt a b = false.
Proof.
  intros [_ Hka]%feq_fle [Hbk _]%feq_fle.
  apply fle_not_flt. exact (fle_trans _ _ _ Hbk Hka).
Qed.

Lemma dt_lt_asym (a b : datetime) : dt_lt a b = true -> dt_lt b a = false.
Proof.
  destruct a as [y1 m1 d1 h1 n1], b as [y2 m2 d2 h2 n2]. unfold dt_lt. simpl.
  rewrite (Z.compare_antisym y1 y2), (Z.compare_antisym m1 m2),
    (Z.compare_antisym d1 d2), (Z.compare_antisym h1 h2).
  destruct (y1 ?= y2); simpl; try congruence.
  destruct (m1 ?= m2); simpl; try congruence.
  destruct (d1 ?= d2); simpl; try congruence.
  destruct (h1 ?= h2); simpl; try congruence.
  lia.
Qed.

Lemma dt_lt_irrefl (a : datetime) : dt_lt a a = false.
Proof.
  destruct (dt_lt a a) eqn:E; [|reflexivity].
  now rewrite (dt_lt_asym _ _ E) in E.
Qed.

Lemma sort_by_date_spec (expenses : list row) :
  timestamps_parse expenses -> sorts_by_date expenses.
Proof.
  intros H.
  apply (sort_spec dt_lt dt_le dt_eq (fun _ => True) timestamp).
  - exact dt_lt_asym.
  - intros a b _ _ E. unfold dt_le. now rewrite E.
  - intros a b k ->%bool_decide_eq_true ->%bool_decide_eq_true.
    apply dt_lt_irrefl.
  - eapply Forall_impl; [exact H|]. intros r [d Hd]. eauto.
Qed.

Lemma sort_by_amount_spec (expenses : list row) :
  amounts_parse expenses -> sorts_by_amount expenses.
Proof.
  intros H.
  apply (sort_spec flt fle feq (fun x => is_nan x = false) amount).
  - exact flt_asym.
  - exact not_flt_fle.
  - exact feq_class_not_flt.
  - exact H.
Qed.

(** C9, as stated, fails: the timestamps of a store may all parse while an
    amount does not, and then the sort by amount raises [ValueError]
    instead of returning a list. *)
Lemma sort_by_amount_garbled :
  timestamps_parse [garbled_row] /\ ~ sorts_by_amount [garbled_row].
Proof.
  split.
  - repeat constructor. eexists. reflexivity.
  - intros (out & H & _). vm_compute in H. discriminate H.
Qed.

(** C9, amended.  On a list whose timestamps all parse, the sort by date
    returns a permutation of the list, non-decreasing in the parsed
    timestamp; on a list whose amounts all parse as numbers (NaN apart), the
    sort by amount returns a permutation, non-decreasing in the amount; in
    both, records with equal keys keep the order they had. *)
Theorem sort_expenses_sorted (expenses : list row) :
  (timestamps_parse expenses -> sorts_by_date expenses) /\
  (amounts_parse expenses -> sorts_by_amount expenses).
Proof.
  split; [apply sort_by_date_spec | apply sort_by_amount_spec].
Qed.

Lemma sort_expenses_sorted_witness :
  sorts_by_date [transport_row; rent_row; food_row] /\
  sorts_by_amount [transport_row; rent_row; food_row].
Proof.
  pose proof (sort_expenses_sorted [transport_row; rent_row; food_row]) as [Hd Ha].
  split.
  - apply Hd. repeat constructor; eexists; reflexivity.
  - apply Ha. repeat constructor; eexists; (split; [reflexivity|reflexivity]).
Defined.

Example sort_by_date_example :
  sort_by_date [transport_row; rent_row; food_row]
  = Ok [rent_row; food_row; transport_row].
Proof. reflexivity. Qed.

Example sort_by_amount_example :
  sort_by_amount [transport_row; rent_row; food_row]
  = Ok [food_row; transport_row; rent_row].
Proof. reflexivity. Qed.

(** ** Whole numbers add exactly *)

Lemma shl_S n j : shl n (S j) = xO (shl n j).
Proof. reflexivity. Qed.

Lemma shl_add n i j : shl (shl n i) j = shl n (i + j).
Proof.
  unfold shl. rewrite Nat.add_comm. symmetry. apply Nat.iter_add.
Qed.

Lemma Zpos_shl n j : Zpos (shl n j) = Zpos n * 2 ^ Z.of_nat j.
Proof.
  induction j as [|j IH]; [simpl; lia|].
  rewrite shl_S, Pos2Z.inj_xO, IH, Nat2Z.inj_succ, Z.pow_succ_r by lia. lia.
Qed.

Lemma digits_shl n j :
  Zpos (digits2_pos (shl n j)) = Zpos (digits2_pos n) + Z.of_nat j.
Proof.
  induction j as [|j IH]; [simpl; lia|].
  rewrite shl_S. simpl digits2_pos. rewrite Pos2Z.inj_succ, IH. lia.
Qed.

Lemma iter_xO_shl n p : Pos.iter xO n p = shl n (Pos.to_nat p).
Proof. apply Pos2Nat.inj_iter. Qed.

Lemma iter_pos_nat {A} (f : A -> A) p x :
  SpecFloat.iter_pos f p x = Nat.iter (Pos.to_nat p) f x.
Proof.
  revert x. induction p as [p IH|p IH|]; intros x; cbn [SpecFloat.iter_pos].
  - rewrite !IH, Pos2Nat.inj_xI, <- Nat.iter_succ_r, <- Nat.iter_add.
    f_equal. lia.
  - rewrite !IH, Pos2Nat.inj_xO, <- Nat.iter_add. f_equal. lia.
  - reflexivity.
Qed.

Lemma shr_shl n i j :
  Nat.iter j shr_1 (Build_shr_record (Zpos (shl n (j + i))) false false)
  = Build_shr_record (Zpos (shl n i)) false false.
Proof.
  revert i. induction j as [|j IH]; intros i; [reflexivity|].
  replace (S j + i)%nat with (j + S i)%nat by lia.
  rewrite Nat.iter_succ, IH. reflexivity.
Qed.

Lemma digits_bound n : 2 ^ (Zpos (digits2_pos n) - 1) <= Zpos n < 2 ^ Zpos (digits2_pos n).
Proof.
  induction n as [n IH|n IH|]; simpl digits2_pos; [| |simpl; lia];
    rewrite Pos2Z.inj_succ;
    replace (Z.succ (Zpos (digits2_pos n)) - 1) with (Z.succ (Zpos (digits2_pos n) - 1)) by lia;
    rewrite !Z.pow_succ_r by lia; lia.
Qed.

Lemma digits_le_53 n : Zpos n < 2 ^ 53 -> Zpos (digits2_pos n) <= 53.
Proof.
  intros H. destruct (digits_bound n) as [Hl _].
  destruct (Z_le_gt_dec (Zpos (digits2_pos n)) 53) as [|Hgt]; [assumption|].
  assert (2 ^ 53 <= 2 ^ (Zpos (digits2_pos n) - 1)) by (apply Z.pow_le_mono_r; lia).
  lia.
Qed.

Lemma round_aux_canon n i :
  Zpos (digits2_pos n) <= 53 ->
  53 - Zpos (digits2_pos n) <= Z.of_nat i ->
  binary_round_aux prec emax false (Zpos (shl n i)) (- Z.of_nat i) loc_Exact = canon n.
Proof.
  intros Hd Hi. unfold binary_round_aux.
  set (d := Zpos (digits2_pos n)) in *.
  assert (Hshr : shr_fexp prec emax (Zpos (shl n i)) (- Z.of_nat i) loc_Exact
          = (Build_shr_record (Zpos (shl n (Z.to_nat (53 - d)))) false false, d - 53)).
  { unfold shr_fexp, Zdigits2. rewrite digits_shl. fold d.
    replace (fexp prec emax (d + Z.of_nat i + - Z.of_nat i) - - Z.of_nat i)
      with (Z.of_nat i - (53 - d)) by (unfold fexp, emin, prec, emax; lia).
    unfold shr. simpl shr_record_of_loc.
    destruct (Z.of_nat i - (53 - d)) as [|p|p] eqn:E; [| |lia].
    - do 2 f_equal; [|lia]. do 3 f_equal. lia.
    - rewrite iter_pos_nat.
      replace i with (Pos.to_nat p + Z.to_nat (53 - d))%nat at 1 by lia.
      rewrite shr_shl. f_equal. lia. }
  rewrite Hshr. simpl shr_m. simpl loc_of_shr_record. simpl round_nearest_even.
  assert (Hshr2 : shr_fexp prec emax (Zpos (shl n (Z.to_nat (53 - d)))) (d - 53) loc_Exact
          = (Build_shr_record (Zpos (shl n (Z.to_nat (53 - d)))) false false, d - 53)).
  { unfold shr_fexp, Zdigits2. rewrite digits_shl. fold d.
    replace (fexp prec emax (d + Z.of_nat (Z.to_nat (53 - d)) + (d - 53)) - (d - 53))
      with 0 by (unfold fexp, emin, prec, emax; lia).
    reflexivity. }
  rewrite Hshr2. simpl shr_m.
  replace (d - 53 <=? emax - prec) with true by (symmetry; apply Z.leb_le; unfold emax, prec; lia).
  reflexivity.
Qed.

Lemma binary_round_shl n j :
  Zpos (digits2_pos n) <= 53 ->
  binary_round prec emax false (shl n j) (- Z.of_nat j) = canon n.
Proof.
  intros Hd. unfold binary_round. rewrite digits_shl.
  set (d := Zpos (digits2_pos n)) in *.
  replace (fexp prec emax (d + Z.of_nat j + - Z.of_nat j)) with (d - 53)
    by (unfold fexp, emin, prec, emax; lia).
  unfold shl_align.
  destruct (d - 53 - - Z.of_nat j) as [|p|p] eqn:E.
  - apply round_aux_canon; fold d; lia.
  - apply round_aux_canon; fold d; lia.
  - rewrite iter_xO_shl, shl_add.
    replace (d - 53) with (- Z.of_nat (j + Pos.to_nat p)) by lia.
    apply round_aux_canon; fold d; lia.
Qed.

Lemma float_of_int_pos n : Zpos n < 2 ^ 53 -> float_of_int (Zpos n) = canon n.
Proof.
  intros H. unfold float_of_int, binary_normalize.
  apply (binary_round_shl n 0). now apply digits_le_53.
Qed.

Lemma align_canon a dz :
  Zpos (digits2_pos a) <= 53 -> 1 <= dz <= Zpos (digits2_pos a) ->
  fst (shl_align (shl a (Z.to_nat (53 - Zpos (digits2_pos a))))
         (Zpos (digits2_pos a) - 53) (dz - 53))
  = shl a (Z.to_nat (53 - dz)).
Proof.
  intros Hd Hz. unfold shl_align.
  destruct (dz - 53 - (Zpos (digits2_pos a) - 53)) as [|p|p] eqn:E; simpl fst.
  - f_equal. lia.
  - lia.
  - rewrite iter_xO_shl, shl_add. f_equal. lia.
Qed.

Lemma fadd_canon a b :
  Zpos a + Zpos b < 2 ^ 53 -> fadd (canon a) (canon b) = canon (a + b).
Proof.
  intros H.
  assert (Ha : Zpos (digits2_pos a) <= 53) by (apply digits_le_53; lia).
  assert (Hb : Zpos (digits2_pos b) <= 53) by (apply digits_le_53; lia).
  assert (Hab : Zpos (digits2_pos (a + b)) <= 53) by (apply digits_le_53; lia).
  unfold fadd, canon, SFadd.
  set (da := Zpos (digits2_pos a)) in *. set (db := Zpos (digits2_pos b)) in *.
  replace (Z.min (da - 53) (db - 53)) with (Z.min da db - 53) by lia.
  unfold da, db. rewrite !align_canon by lia. fold da db.
  unfold cond_Zopp.
  replace (Zpos (shl a (Z.to_nat (53 - Z.min da db)))
           + Zpos (shl b (Z.to_nat (53 - Z.min da db))))
    with (Zpos (shl (a + b) (Z.to_nat (53 - Z.min da db))))
    by (rewrite !Zpos_shl; lia).
  unfold binary_normalize.
  replace (Z.min da db - 53) with (- Z.of_nat (Z.to_nat (53 - Z.min da db))) by lia.
  now apply binary_round_shl.
Qed.

Lemma fadd_int a b :
  0 <= a -> 0 <= b -> a + b < 2 ^ 53 ->
  fadd (float_of_int a) (float_of_int b) = float_of_int (a + b).
Proof.
  intros Ha Hb H. destruct a as [|a|a], b as [|b|b]; try lia.
  - reflexivity.
  - change (0 + Zpos b) with (Zpos b). rewrite float_of_int_pos by lia. reflexivity.
  - rewrite Z.add_0_r, float_of_int_pos by lia. reflexivity.
  - change (Zpos a + Zpos b) with (Zpos (a + b)) in *.
    rewrite !float_of_int_pos by lia. apply fadd_canon. lia.
Qed.

(** ** Summary by category *)

Lemma sum_ints ns a :
  Forall (fun n => 0 <= n) ns -> 0 <= a -> a + Zsum ns < 2 ^ 53 ->
  fold_left fadd (map float_of_int ns) (float_of_int a) = float_of_int (a + Zsum ns).
Proof.
  intros Hns. revert a. induction Hns as [|n ns Hn Hns IH]; intros a Ha H; simpl in *.
  - now rewrite Z.add_0_r.
  - assert (0 <= Zsum ns).
    { clear -Hns. induction Hns; simpl; lia. }
    rewrite fadd_int by lia. rewrite IH by lia. f_equal. lia.
Qed.

Lemma Zsum_nonneg ns : Forall (fun n => 0 <= n) ns -> 0 <= Zsum ns.
Proof. induction 1; simpl; lia. Qed.

Lemma lookup_add_at k k' x s :
  lookup_key k (add_at s k' x)
  = if decide (k' = k) then Some (fadd (default (S754_zero false) (lookup_key k s)) x)
    else lookup_key k s.
Proof.
  induction s as [|[k0 v] s IH]; simpl.
  - destruct (decide (k' = k)); reflexivity.
  - destruct (decide (k0 = k')) as [->|Hne]; simpl.
    + destruct (decide (k' = k)); reflexivity.
    + destruct (decide (k0 = k)) as [->|Hne'].
      * destruct (decide (k' = k)); [congruence|reflexivity].
      * exact IH.
Qed.

Lemma keys_add_at k x s :
  map fst (add_at s k x) = if decide (k ∈ map fst s) then map fst s else map fst s ++ [k].
Proof.
  induction s as [|[k0 v] s IH]; simpl.
  - destruct (decide (k ∈ [])) as [H|_]; [inversion H|reflexivity].
  - destruct (decide (k0 = k)) as [->|Hne]; simpl.
    + destruct (decide (k ∈ k :: map fst s)) as [_|H]; [reflexivity|].
      exfalso. apply H. left.
    + rewrite IH. destruct (decide (k ∈ map fst s)) as [H|H];
        destruct (decide (k ∈ k0 :: map fst s)) as [H'|H']; try reflexivity.
      * exfalso. apply H'. now right.
      * exfalso. apply H. inversion H'; subst; [congruence|assumption].
Qed.

Lemma NoDup_add_at k x s : NoDup (map fst s) -> NoDup (map fst (add_at s k x)).
Proof.
  intros H. rewrite keys_add_at. destruct (decide (k ∈ map fst s)); [assumption|].
  apply NoDup_app. repeat split; [assumption| |apply NoDup_singleton].
  intros y Hy ->%list_elem_of_singleton. contradiction.
Qed.

Lemma by_category_inv s0 r rs s :
  by_category s0 (r :: rs) = Ok s ->
  exists k x, r !! 2%nat = Some k /\ amount r = Ok x /\
              by_category (add_at s0 k x) rs = Ok s.
Proof.
  cbn [by_category]. intros (k & Hk & H)%bind_inv_Ok.
  apply bind_inv_Ok in H as (x & Hx & H).
  exists k, x. repeat split; try assumption.
  unfold index in Hk. destruct (r !! 2%nat); [now inversion Hk|discriminate].
Qed.

Lemma by_category_NoDup rs : forall s0 s,
  by_category s0 rs = Ok s -> NoDup (map fst s0) -> NoDup (map fst s).
Proof.
  induction rs as [|r rs IH]; intros s0 s H Hs0.
  - inversion H; subst. exact Hs0.
  - apply by_category_inv in H as (k & x & _ & _ & H).
    eapply IH; [exact H|]. now apply NoDup_add_at.
Qed.

Lemma by_category_lookup rs : forall s0 s,
  by_category s0 rs = Ok s ->
  forall k, exists xs,
    traverse amount (List.filter (has_category k) rs) = Ok xs /\
    lookup_key k s =
      match lookup_key k s0, xs with
      | None, [] => None
      | o, _ => Some (fold_left fadd xs (default (S754_zero false) o))
      end.
Proof.
  induction rs as [|r rs IH]; intros s0 s H k.
  - inversion H; subst. exists []. split; [reflexivity|].
    now destruct (lookup_key k s).
  - apply by_category_inv in H as (k' & x & Hk & Hx & H).
    destruct (IH _ _ H k) as (xs & Hxs & Hl).
    rewrite lookup_add_at in Hl. simpl List.filter. unfold has_category at 1.
    rewrite Hk. destruct (decide (k' = k)) as [->|Hne].
    + rewrite bool_decide_eq_true_2 by reflexivity.
      exists (x :: xs). simpl. rewrite Hx, bind_Ok, Hxs, bind_Ok.
      split; [reflexivity|]. rewrite Hl. now destruct (lookup_key k s0).
    + rewrite bool_decide_eq_false_2 by congruence.
      exists xs. split; assumption.
Qed.

Lemma add_at_ints k n s zs :
  map snd s = map float_of_int zs -> Forall (fun z => 0 <= z) zs ->
  0 <= n -> Zsum zs + n < 2 ^ 53 ->
  exists zs', map snd (add_at s k (float_of_int n)) = map float_of_int zs' /\
              Forall (fun z => 0 <= z) zs' /\ Zsum zs' = Zsum zs + n.
Proof.
  revert zs. induction s as [|[k0 v] s IH]; intros zs Hs Hzs Hn H.
  - destruct zs; [|discriminate]. exists [n]. unfold Zsum in H. simpl in H. simpl. repeat split.
    + f_equal. apply (fadd_int 0 n); lia.
    + now constructor.
    + simpl; lia.
  - destruct zs as [|z zs]; [discriminate|]. simpl in Hs. injection Hs as -> Hs.
    inversion Hzs as [|? ? Hz Hzs']; subst. simpl in H.
    pose proof (Zsum_nonneg _ Hzs').
    simpl add_at. destruct (decide (k0 = k)) as [->|Hne].
    + exists ((z + n) :: zs). simpl. repeat split.
      * rewrite fadd_int by lia. now rewrite Hs.
      * constructor; [lia|assumption].
      * simpl in *; lia.
    + destruct (IH zs Hs Hzs' Hn) as (zs' & Hm & Hf & Hsum); [lia|].
      exists (z :: zs'). simpl. repeat split.
      * now rewrite Hm.
      * now constructor.
      * simpl in *; lia.
Qed.

Lemma by_category_ints rs : forall ns s0 zs s,
  whole_amounts rs ns ->
  map snd s0 = map float_of_int zs -> Forall (fun z => 0 <= z) zs ->
  Zsum zs + Zsum ns < 2 ^ 53 ->
  by_category s0 rs = Ok s ->
  exists zs', map snd s = map float_of_int zs' /\
              Forall (fun z => 0 <= z) zs' /\ Zsum zs' = Zsum zs + Zsum ns.
Proof.
  induction rs as [|r rs IH]; intros ns s0 zs s Hw Hs0 Hzs Hlt H.
  - inversion Hw; subst. inversion H; subst. exists zs. simpl. repeat split; auto. lia.
  - inversion Hw as [|? n ? ns' [Hn Hr] Hw']; subst.
    apply by_category_inv in H as (k & x & _ & Hx & H).
    rewrite Hr in Hx. injection Hx as <-.
    assert (Hns' : 0 <= Zsum ns').
    { clear -Hw'. induction Hw' as [|? ? ? ? [? _]]; simpl; lia. }
    simpl in Hlt.
    destruct (add_at_ints k n s0 zs Hs0 Hzs Hn) as (zs1 & Hm & Hf & Hsum); [lia|].
    destruct (IH ns' _ zs1 s Hw' Hm Hf) as (zs' & ? & ? & ?); [lia|exact H|].
    exists zs'. repeat split; try assumption. simpl. lia.
Qed.

Lemma total_of_ints rs ns :
  whole_amounts rs ns -> Zsum ns < 2 ^ 53 ->
  total_of rs = Ok (float_of_int (Zsum ns)).
Proof.
  intros Hw Hlt. unfold total_of.
  assert (Ht : traverse amount rs = Ok (map float_of_int ns)).
  { clear Hlt. induction Hw as [|r n rs ns [_ Hr] _ IH]; [reflexivity|].
    simpl. now rewrite Hr, bind_Ok, IH, bind_Ok. }
  assert (Hf : Forall (fun n => 0 <= n) ns).
  { clear -Hw. induction Hw as [|? ? ? ? [? _]]; constructor; assumption. }
  rewrite Ht, bind_Ok. unfold sum. rewrite sum_ints by (try assumption; lia).
  reflexivity.
Qed.

(** *** Compensated sums of whole numbers *)

Lemma binary_round_aux_opp m e l :
  binary_round_aux prec emax true m e l
  = SFopp (binary_round_aux prec emax false m e l).
Proof.
  unfold binary_round_aux.
  destruct (shr_fexp prec emax m e l) as [mrs e'].
  destruct (shr_fexp prec emax _ e' loc_Exact) as [mrs' e''].
  destruct (shr_m mrs'); [reflexivity| |reflexivity].
  now destruct (e'' <=? emax - prec).
Qed.

Lemma binary_round_opp (m : positive) (e : Z) :
  binary_round prec emax true m e = SFopp (binary_round prec emax false m e).
Proof.
  unfold binary_round. destruct (shl_align m e _) as [mz ez].
  apply binary_round_aux_opp.
Qed.

Lemma fsub_canon a b :
  Zpos a + Zpos b < 2 ^ 53 -> fsub (canon a) (canon (a + b)) = SFopp (canon b).
Proof.
  intros H.
  assert (Ha : Zpos (digits2_pos a) <= 53) by (apply digits_le_53; lia).
  assert (Hb : Zpos (digits2_pos b) <= 53) by (apply digits_le_53; lia).
  assert (Hab : Zpos (digits2_pos (a + b)) <= 53) by (apply digits_le_53; lia).
  unfold fsub, canon, SFsub.
  set (da := Zpos (digits2_pos a)) in *. set (dab := Zpos (digits2_pos (a + b))) in *.
  replace (Z.min (da - 53) (dab - 53)) with (Z.min da dab - 53) by lia.
  unfold da, dab. rewrite !align_canon by lia. fold da dab.
  unfold cond_Zopp.
  replace (Zpos (shl a (Z.to_nat (53 - Z.min da dab)))
           - Zpos (shl (a + b) (Z.to_nat (53 - Z.min da dab))))
    with (Zneg (shl b (Z.to_nat (53 - Z.min da dab))))
    by (rewrite <- Pos2Z.opp_pos, !Zpos_shl; lia).
  unfold binary_normalize. rewrite binary_round_opp. f_equal.
  replace (Z.min da dab - 53) with (- Z.of_nat (Z.to_nat (53 - Z.min da dab))) by lia.
  now apply binary_round_shl.
Qed.

Lemma fadd_opp_canon a : fadd (SFopp (canon a)) (canon a) = S754_zero false.
Proof.
  unfold fadd, canon, SFopp, SFadd, shl_align.
  rewrite Z.min_id, Z.sub_diag. simpl fst. unfold cond_Zopp, negb.
  now rewrite Z.add_opp_diag_l.
Qed.

(** The correction of one compensated addition, when nothing is lost. *)
Lemma correction_int a b :
  0 <= a -> 0 <= b -> a + b < 2 ^ 53 ->
  fadd (fsub (float_of_int a) (float_of_int (a + b))) (float_of_int b)
  = S754_zero false.
Proof.
  intros Ha Hb H. destruct a as [|a|a], b as [|b|b]; try lia.
  - reflexivity.
  - change (0 + Zpos b) with (Zpos b). rewrite float_of_int_pos by lia.
    change (float_of_int 0) with (S754_zero false).
    change (fsub (S754_zero false) (canon b)) with (SFopp (canon b)).
    apply fadd_opp_canon.
  - rewrite Z.add_0_r, float_of_int_pos by lia.
    change (float_of_int 0) with (S754_zero false).
    unfold fsub, canon, SFsub, shl_align.
    rewrite Z.min_id, Z.sub_diag. simpl fst. unfold cond_Zopp.
    reflexivity.
  - change (Zpos a + Zpos b) with (Zpos (a + b)) in *.
    rewrite !float_of_int_pos by lia. rewrite fsub_canon by lia.
    apply fadd_opp_canon.
Qed.

Lemma compensate_int a n :
  0 <= a -> 0 <= n -> a + n < 2 ^ 53 ->
  compensate (float_of_int a, S754_zero false) (float_of_int n)
  = (float_of_int (a + n), S754_zero false).
Proof.
  intros Ha Hn H. unfold compensate. rewrite fadd_int by lia.
  rewrite (correction_int a n) by lia.
  replace (fsub (float_of_int n) (float_of_int (a + n)))
    with (fsub (float_of_int n) (float_of_int (n + a))) by (f_equal; f_equal; lia).
  rewrite (correction_int n a) by lia.
  now destruct (fle _ _).
Qed.

Lemma fold_compensate_ints ns : forall a,
  Forall (fun n => 0 <= n) ns -> 0 <= a -> a + Zsum ns < 2 ^ 53 ->
  fold_left compensate (map float_of_int ns) (float_of_int a, S754_zero false)
  = (float_of_int (a + Zsum ns), S754_zero false).
Proof.
  induction ns as [|n ns IH]; intros a Hns Ha H; cbn [map fold_left].
  - simpl. now rewrite Z.add_0_r.
  - inversion Hns as [|? ? Hn Hns']; subst.
    pose proof (Zsum_nonneg _ Hns').
    change (Zsum (n :: ns)) with (n + Zsum ns) in *.
    rewrite compensate_int by lia. rewrite IH by (try assumption; lia).
    do 2 f_equal. lia.
Qed.

Lemma sum_compensated_ints ns :
  Forall (fun n => 0 <= n) ns -> Zsum ns < 2 ^ 53 ->
  sum_compensated (map float_of_int ns) = float_of_int (Zsum ns).
Proof.
  intros Hns H. destruct ns as [|n ns]; [reflexivity|].
  inversion Hns as [|? ? Hn Hns']; subst. pose proof (Zsum_nonneg _ Hns').
  change (Zsum (n :: ns)) with (n + Zsum ns) in *.
  cbn [map sum_compensated]. rewrite (fadd_int 0 n) by lia.
  change (0 + n) with n.
  rewrite fold_compensate_ints by (try assumption; lia). reflexivity.
Qed.

Lemma total_of_compensated_ints rs ns :
  whole_amounts rs ns -> Zsum ns < 2 ^ 53 ->
  total_of_compensated rs = Ok (float_of_int (Zsum ns)).
Proof.
  intros Hw Hlt. unfold total_of_compensated.
  assert (Ht : traverse amount rs = Ok (map float_of_int ns)).
  { clear Hlt. induction Hw as [|r n rs ns [_ Hr] _ IH]; [reflexivity|].
    simpl. now rewrite Hr, bind_Ok, IH, bind_Ok. }
  assert (Hf : Forall (fun n => 0 <= n) ns).
  { clear -Hw. induction Hw as [|? ? ? ? [? _]]; constructor; assumption. }
  rewrite Ht, bind_Ok. now rewrite sum_compensated_ints.
Qed.

Lemma by_category_total rs : forall s0,
  records rs -> Forall (fun r => exists x, amount r = Ok x) rs ->
  exists s, by_category s0 rs = Ok s.
Proof.
  induction rs as [|r rs IH]; intros s0 Hrec Ham; [now exists s0|].
  inversion Hrec as [|? ? Hr Hrec']; inversion Ham as [|? ? [y Hy] Ham']; subst.
  destruct r as [|[d|] [|a [|[c|] [|[n|] [|]]]]]; try discriminate.
  cbn [by_category]. change (index [Str d; a; Str c; Str n] 2) with (Ok (Str c)).
  rewrite bind_Ok, Hy, bind_Ok. now apply IH.
Qed.

(** C7, as stated, fails: float additions round, and grouping changes the
    order of the additions.  For 0.1 (Food), 0.2 (Transport) and 0.6 (Food)
    the total is 0.9, whether [sum] adds plainly or compensates, while the
    category totals 0.7 and 0.2 add up to 0.8999999999999999. *)
Lemma totals_differ_tenths :
  ~ totals_add_up tenths /\ ~ totals_add_up_compensated tenths.
Proof.
  split; intros (summary & total & Hs & Ht & H);
    vm_compute in Hs, Ht; injection Hs as <-; injection Ht as <-;
    vm_compute in H; discriminate H.
Qed.

(** C7, amended.  The summary groups the amounts by the exact category
    cell: its keys are distinct, a category is a key exactly when a record
    carries it, and its total is the amounts of the records carrying
    exactly it, added one after the other in the order of the records; the
    summary is computed for every list of records whose amounts parse.  When the amounts are whole numbers, none negative, that add up
    to less than 2^53, the category totals add up to the total of all
    amounts, whether [sum] adds plainly or compensates. *)
Theorem by_category_groups (expenses : list row) :
  (forall summary,
     by_category [] expenses = Ok summary ->
     NoDup (map fst summary) /\
     forall k,
       match lookup_key k summary with
       | Some v =>
           List.filter (has_category k) expenses <> [] /\
           exists xs,
             traverse amount (List.filter (has_category k) expenses) = Ok xs /\
             v = added_in_order xs
       | None => List.filter (has_category k) expenses = []
       end) /\
  (records expenses -> Forall (fun r => exists x, amount r = Ok x) expenses ->
   exists summary, by_category [] expenses = Ok summary) /\
  (forall ns summary,
     whole_amounts expenses ns -> Zsum ns < 2 ^ 53 ->
     by_category [] expenses = Ok summary ->
     total_of expenses = Ok (float_of_int (Zsum ns)) /\
     sum (map snd summary) = float_of_int (Zsum ns) /\
     total_of_compensated expenses = Ok (float_of_int (Zsum ns)) /\
     sum_compensated (map snd summary) = float_of_int (Zsum ns)).
Proof.
  split; [|split].
  - intros summary H. split; [eapply by_category_NoDup; [exact H|constructor]|].
    intros k. destruct (by_category_lookup _ _ _ H k) as (xs & Hxs & Hl).
    rewrite Hl. simpl.
    destruct xs as [|x xs].
    + destruct (List.filter _ _) as [|r l]; [reflexivity|].
      simpl in Hxs. destruct (amount r); [|discriminate].
      rewrite bind_Ok in Hxs. destruct (traverse amount l); discriminate.
    + split; [intros E; rewrite E in Hxs; discriminate|].
      exists (x :: xs). split; [exact Hxs|reflexivity].
  - intros. now apply by_category_total.
  - intros ns summary Hw Hlt H.
    destruct (by_category_ints _ ns [] [] summary Hw eq_refl) as (zs & Hm & Hf & Hs);
      [constructor|simpl; lia|exact H|].
    assert (Hz : Zsum zs = Zsum ns) by (simpl in Hs; lia).
    split; [now apply total_of_ints|]. split; [|split].
    + rewrite Hm. unfold sum. rewrite sum_ints by (try assumption; simpl in *; lia).
      f_equal. simpl in *. lia.
    + now apply total_of_compensated_ints.
    + rewrite Hm, sum_compensated_ints by (try assumption; lia). now rewrite Hz.
Qed.

Lemma by_category_groups_witness :
  total_of [food_row; transport_row; rent_row] = Ok (float_of_int 2300) /\
  sum (map snd [ (Str "Food", float_of_int 500);
                 (Str "Transport", float_of_int 800);
                 (Str "Rent", float_of_int 1000) ]) = float_of_int 2300 /\
  total_of_compensated [food_row; transport_row; rent_row]
  = Ok (float_of_int 2300) /\
  sum_compensated (map snd [ (Str "Food", float_of_int 500);
                             (Str "Transport", float_of_int 800);
                             (Str "Rent", float_of_int 1000) ])
  = float_of_int 2300.
Proof.
  refine (proj2 (proj2 (by_category_groups [food_row; transport_row; rent_row]))
            [500; 800; 1000] _ _ eq_refl eq_refl).
  unfold whole_amounts.
  repeat (constructor; [split; [lia|reflexivity]|]). constructor.
Defined.

(** The grouping is by the exact text: "Food" and "food" are two keys. *)
Example by_category_case_sensitive :
  by_category []
    [ [Str "2024-01-05 10:00"; Str "500"; Str "Food"; Str ""];
      [Str "2024-01-06 10:00"; Str "300"; Str "food"; Str ""];
      [Str "2024-01-07 10:00"; Str "200"; Str "Food"; Str ""] ]
  = Ok [(Str "Food", float_of_int 700); (Str "food", float_of_int 300)].
Proof. reflexivity. Qed.

(** ** Valid amounts *)

(** C6.  [is_valid_amount] accepts whatever [float] reads: a negative
    number, "nan" and "inf" too.  The edit path then writes it: saving "-5"
    stores an amount below zero. *)
Theorem is_valid_amount_accepts_negative :
  is_valid_amount "12.50" = Ok true /\
  is_valid_amount "abc" = Ok false /\
  is_valid_amount "-5" = Ok true /\
  is_valid_amount "nan" = Ok true /\
  is_valid_amount "inf" = Ok true /\
  exists x,
    edit_expense (Some [food_row]) 0 "-5" "Food" "" true
    = Ok (Some [[Str "2024-01-05 10:00"; Flt x; Str "Food"; Str ""]],
          [WriteRow 0 food_row; Success "Expense updated."]) /\
    flt x (float_of_int 0) = true.
Proof.
  repeat (split; [reflexivity|]).
  eexists. split; reflexivity.
Qed.

(** ** What [float] reads *)

Lemma digit_facts (c : ascii) :
  is_digit c = true ->
  Ascii.eqb c "_" = false /\ is_space c = false /\
  Ascii.eqb c "-" = false /\ Ascii.eqb c "+" = false /\
  Ascii.eqb c "." = false /\ lower_char c = c /\
  Ascii.eqb c "i" = false /\ Ascii.eqb c "n" = false.
Proof.
  destruct c as [[] [] [] [] [] [] [] []]; intros H; try discriminate H;
    repeat split; reflexivity.
Qed.

Lemma span_digits (ip rest : list ascii) :
  digits ip ->
  match rest with c :: _ => is_digit c = false | [] => True end ->
  span is_digit (ip ++ rest) = (ip, rest).
Proof.
  intros Hip Hrest. induction Hip as [|c ip Hc _ IH]; simpl.
  - destruct rest as [|c rest]; [reflexivity|]. simpl. now rewrite Hrest.
  - now rewrite Hc, IH.
Qed.

Lemma drop_underscores_none (prev : ascii) (l : list ascii) :
  Ascii.eqb prev "_" = false ->
  Forall (fun c => Ascii.eqb c "_" = false) l ->
  drop_underscores prev l = Some l.
Proof.
  intros Hp Hl. revert prev Hp. induction Hl as [|c l Hc _ IH]; intros prev Hp; simpl.
  - now rewrite Hp.
  - rewrite Hc, Hp. simpl. now rewrite (IH c Hc).
Qed.

Lemma lstrip_no_space (l : list ascii) :
  Forall (fun c => is_space c = false) l -> lstrip l = l.
Proof. destruct 1 as [|c l Hc _]; simpl; [reflexivity|now rewrite Hc]. Qed.

Lemma strip_no_space (l : list ascii) :
  Forall (fun c => is_space c = false) l -> strip l = l.
Proof.
  intros H. unfold strip. rewrite (lstrip_no_space l H).
  rewrite lstrip_no_space by now apply Forall_rev. apply rev_involutive.
Qed.

(** X1.  [is_valid_amount] accepts every non-negative decimal numeral:
    [float] reads it. *)
Theorem is_valid_amount_decimal (s : string) :
  decimal_numeral s ->
  exists x, float_of_string s = Ok x /\ is_valid_amount s = Ok true.
Proof.
  intros (ip & fp & Hne & Hip & Hfp & Hs).
  assert (exists rest, list_ascii_of_string s = ip ++ rest /\
                       (rest = [] \/ rest = "."%char :: fp)) as (rest & Hl & Hrest).
  { destruct Hs as [->| ->]; [exists []|exists ("."%char :: fp)]; split; auto.
    now rewrite app_nil_r. }
  clear Hs.
  assert (Hall : Forall (fun c => Ascii.eqb c "_" = false /\ is_space c = false)
                   (ip ++ rest)).
  { apply Forall_app. split.
    - eapply Forall_impl; [exact Hip|]. intros c Hc.
      destruct (digit_facts c Hc) as (? & ? & _). now split.
    - destruct Hrest as [->| ->]; constructor; [now split|].
      eapply Forall_impl; [exact Hfp|]. intros c Hc.
      destruct (digit_facts c Hc) as (? & ? & _). now split. }
  destruct ip as [|c ip]; [congruence|].
  inversion Hip as [|? ? Hc Hip']; subst.
  destruct (digit_facts c Hc) as (_ & _ & Hm & Hp & _ & Hlow & Hi & Hn).
  assert (Hnum : exists x, read_number false ((c :: ip) ++ rest) = Some x).
  { unfold read_number. rewrite span_digits; [|exact Hip|].
    - destruct Hrest as [->| ->].
      + simpl. eauto.
      + pose proof (span_digits fp [] Hfp I) as Hsp. rewrite app_nil_r in Hsp.
        simpl. rewrite Hsp. simpl. eauto.
    - destruct Hrest as [->| ->]; [exact I|reflexivity]. }
  destruct Hnum as [x Hx]. exists x.
  assert (Hf : float_of_string s = Ok x).
  { unfold float_of_string. rewrite Hl.
    rewrite drop_underscores_none;
      [|reflexivity|eapply Forall_impl; [exact Hall|]; now intros ? [? _]].
    rewrite strip_no_space by (eapply Forall_impl; [exact Hall|]; now intros ? [_ ?]).
    unfold read_float. simpl read_sign. rewrite Hm, Hp.
    simpl string_of_list_ascii. simpl lower. rewrite Hlow. simpl String.eqb.
    rewrite Hi, Hn. change (c :: ip ++ rest) with ((c :: ip) ++ rest).
    rewrite Hx. reflexivity. }
  split; [exact Hf|]. unfold is_valid_amount. now rewrite Hf.
Qed.

Lemma is_valid_amount_decimal_witness :
  exists x, float_of_string "12.50" = Ok x /\ is_valid_amount "12.50" = Ok true.
Proof.
  apply (is_valid_amount_decimal "12.50").
  exists ["1"; "2"]%char, ["5"; "0"]%char.
  split; [discriminate|]. split; [now repeat constructor|].
  split; [now repeat constructor|]. now right.
Defined.

Lemma span_spec (p : ascii -> bool) (s a b : list ascii) :
  span p s = (a, b) -> s = a ++ b /\ Forall (fun c => p c = true) a.
Proof.
  revert a b. induction s as [|c s IH]; intros a b; simpl.
  - intros [= <- <-]. split; [reflexivity|constructor].
  - destruct (p c) eqn:Hc.
    + destruct (span p s) as [a' b']. intros [= <- <-].
      destruct (IH a' b' eq_refl) as [-> Ha]. split; [reflexivity|now constructor].
    + intros [= <- <-]. split; [reflexivity|constructor].
Qed.

Lemma drop_underscores_sub (s s' : list ascii) (prev c : ascii) :
  drop_underscores prev s = Some s' -> c ∈ s' -> c ∈ s.
Proof.
  revert prev s'. induction s as [|d s IH]; intros prev s'; simpl.
  - destruct (Ascii.eqb prev "_"); [discriminate|]. now intros [= <-].
  - destruct (Ascii.eqb d "_").
    + destruct (is_digit prev); [|discriminate]. intros H Hc. right. eauto.
    + destruct (Ascii.eqb prev "_" && negb (is_digit d)); [discriminate|].
      destruct (drop_underscores d s) as [t|] eqn:E; [|discriminate].
      simpl. intros [= <-] Hc. apply elem_of_cons in Hc as [->|Hc]; [left|right; eauto].
Qed.

Lemma lstrip_sub (s : list ascii) (c : ascii) : c ∈ lstrip s -> c ∈ s.
Proof.
  induction s as [|d s IH]; simpl; [auto|].
  destruct (is_space d); [right; auto|auto].
Qed.

Lemma strip_sub (s : list ascii) (c : ascii) : c ∈ strip s -> c ∈ s.
Proof.
  unfold strip. rewrite list_elem_of_In, <- in_rev, <- list_elem_of_In.
  intros H%lstrip_sub. rewrite list_elem_of_In, <- in_rev, <- list_elem_of_In in H.
  now apply lstrip_sub.
Qed.

Lemma read_sign_sub (s : list ascii) (c : ascii) : c ∈ snd (read_sign s) -> c ∈ s.
Proof.
  destruct s as [|d s]; simpl; [auto|].
  destruct (Ascii.eqb d "-"); [right; auto|].
  destruct (Ascii.eqb d "+"); [right; auto|auto].
Qed.

Lemma read_number_digit (neg : bool) (s : list ascii) (x : float) :
  read_number neg s = Some x -> exists c, c ∈ s /\ is_digit c = true.
Proof.
  unfold read_number.
  destruct (span is_digit s) as [ip s1] eqn:E1.
  apply span_spec in E1 as [-> Hip].
  destruct ip as [|c ip].
  - destruct s1 as [|d t]; [discriminate|]. simpl.
    destruct (Ascii.eqb d "."); [|discriminate].
    destruct (span is_digit t) as [fp s2] eqn:E2.
    apply span_spec in E2 as [-> Hfp].
    destruct fp as [|c fp]; [discriminate|]. intros _.
    exists c. inversion Hfp; subst. split; [|assumption].
    right. left.
  - intros _. exists c. inversion Hip; subst. split; [left|assumption].
Qed.

Lemma read_float_digit (s : list ascii) (x : float) :
  read_float s = Some x ->
  (exists c, c ∈ s /\ is_digit c = true) \/ not_finite x.
Proof.
  unfold read_float. pose proof (read_sign_sub s) as Hsub.
  destruct (read_sign s) as [neg s1]. simpl in Hsub.
  destruct (_ || _); [intros [= <-]; now right|].
  destruct (String.eqb _ "nan"); [intros [= <-]; now right|].
  intros (c & Hc & Hd)%read_number_digit. left. exists c. split; auto.
Qed.

(** X2.  An ASCII string that holds no digit is rejected by
    [is_valid_amount], unless [float] reads it as an infinity or as NaN
    (the words inf, infinity and nan). *)
Theorem is_valid_amount_rejects (s : string) :
  ascii_text s -> ~ has_digit s ->
  is_valid_amount s = Ok false \/
  exists x, float_of_string s = Ok x /\ not_finite x.
Proof.
  intros _ Hno. unfold is_valid_amount, float_of_string.
  destruct (drop_underscores "000" (list_ascii_of_string s)) as [s'|] eqn:E;
    [|now left].
  destruct (read_float (strip s')) as [x|] eqn:Ex; [|now left].
  right. exists x. split; [reflexivity|].
  destruct (read_float_digit _ _ Ex) as [(c & Hc & Hd)|Hx]; [|exact Hx].
  exfalso. apply Hno. unfold has_digit. apply Exists_exists.
  exists c. split; [|exact Hd].
  eapply drop_underscores_sub; [exact E|]. now apply strip_sub.
Qed.

Lemma is_valid_amount_rejects_witness :
  is_valid_amount "twelve" = Ok false \/
  exists x, float_of_string "twelve" = Ok x /\ not_finite x.
Proof.
  apply (is_valid_amount_rejects "twelve").
  - unfold ascii_text. simpl. repeat (constructor; [reflexivity|]). constructor.
  - unfold has_digit. simpl. intros H.
    repeat (apply Exists_cons in H as [H|H]; [discriminate H|]).
    inversion H.
Defined.

(** ** The sorted order is unique *)

Section SortUnique.
Context {K A : Type} (le eqv : K -> K -> bool) (valid : K -> Prop).
Context (key : A -> result K).

Hypothesis le_refl : forall a, valid a -> le a a = true.
Hypothesis le_trans :
  forall a b c, le a b = true -> le b c = true -> le a c = true.
Hypothesis eqv_le :
  forall a b, valid a -> valid b ->
              (eqv a b = true <-> le a b = true /\ le b a = true).

Local Abbreviation key_le := (key_le key le).
Local Abbreviation in_class := (key_in_class key eqv).
Local Abbreviation keyed := (fun x => exists k, key x = Ok k /\ valid k).

Lemma key_le_trans : Transitive key_le.
Proof.
  intros a b c (x & y & Hx & Hy & Hxy) (y' & z & Hy' & Hz & Hyz).
  rewrite Hy in Hy'. injection Hy' as <-.
  exists x, z. repeat split; try assumption. now apply (le_trans _ y).
Qed.

Lemma key_le_head (x y : A) (t : list A) (kx ky : K) :
  key x = Ok kx -> valid kx -> key y = Ok ky ->
  StronglySorted key_le (x :: t) -> y ∈ x :: t -> le kx ky = true.
Proof.
  intros Hx Hv Hy Hs [->|Hin]%elem_of_cons.
  - rewrite Hx in Hy. injection Hy as <-. now apply le_refl.
  - apply StronglySorted_inv in Hs as [_ Hall].
    rewrite Forall_forall in Hall.
    destruct (Hall _ Hin) as (x' & y' & Hx' & Hy' & Hle).
    congruence.
Qed.

Lemma sorted_unique (o1 : list A) : forall o2,
  Forall keyed o1 ->
  StronglySorted key_le o1 -> StronglySorted key_le o2 ->
  o1 ≡ₚ o2 ->
  (forall k, List.filter (in_class k) o1 = List.filter (in_class k) o2) ->
  o1 = o2.
Proof.
  induction o1 as [|x t1 IH]; intros o2 Hk Hs1 Hs2 Hp Hf.
  - now apply Permutation_nil in Hp.
  - destruct o2 as [|y t2]; [now apply Permutation_sym, Permutation_nil in Hp|].
    assert (Hk2 : Forall keyed (y :: t2)) by now rewrite <- Hp.
    inversion Hk as [|? ? (kx & Hx & Hvx) Hk1]; subst.
    inversion Hk2 as [|? ? (ky & Hy & Hvy) _]; subst.
    assert (Hxy : le kx ky = true).
    { eapply key_le_head; eauto. rewrite Hp. left. }
    assert (Hyx : le ky kx = true).
    { eapply key_le_head; eauto. rewrite <- Hp. left. }
    assert (x = y) as <-.
    { assert (Hcx : in_class kx x = true).
      { unfold key_in_class. rewrite Hx. apply eqv_le; auto. }
      assert (Hcy : in_class kx y = true).
      { unfold key_in_class. rewrite Hy. apply eqv_le; auto. }
      specialize (Hf kx). simpl in Hf. rewrite Hcx, Hcy in Hf.
      now injection Hf. }
    f_equal. apply IH.
    + exact Hk1.
    + now apply StronglySorted_inv in Hs1.
    + now apply StronglySorted_inv in Hs2.
    + now apply Permutation_cons_inv in Hp.
    + intros k. specialize (Hf k). simpl in Hf.
      destruct (in_class k x); [now injection Hf|exact Hf].
Qed.

Lemma sorted_by_unique (l o1 o2 : list A) :
  Forall keyed l ->
  sorted_by key le eqv l o1 -> sorted_by key le eqv l o2 -> o1 = o2.
Proof.
  intros Hk (Hp1 & Hs1 & Hf1) (Hp2 & Hs2 & Hf2).
  apply sorted_unique.
  - now rewrite Hp1.
  - apply Sorted_StronglySorted; [exact key_le_trans|exact Hs1].
  - apply Sorted_StronglySorted; [exact key_le_trans|exact Hs2].
  - now rewrite Hp1, Hp2.
  - intros k. now rewrite Hf1, Hf2.
Qed.
End SortUnique.

Lemma fle_refl (x : float) : is_nan x = false -> fle x x = true.
Proof.
  intros H. apply not_flt_fle; try assumption.
  destruct (flt x x) eqn:E; [|reflexivity]. now rewrite (flt_asym _ _ E) in E.
Qed.

Lemma fle_antisym (x y : float) :
  fle x y = true -> fle y x = true -> feq x y = true.
Proof.
  unfold fle, feq, SFleb, SFeqb. rewrite (SFcompare_antisym x y).
  destruct (SFcompare x y) as [[]|]; simpl; congruence.
Qed.

Lemma dt_le_trans (a b c : datetime) :
  dt_le a b = true -> dt_le b c = true -> dt_le a c = true.
Proof.
  destruct a as [y1 m1 d1 h1 n1], b as [y2 m2 d2 h2 n2], c as [y3 m3 d3 h3 n3].
  unfold dt_le, dt_lt. simpl.
  repeat (match goal with
          | |- context [?u ?= ?v] => destruct (Z.compare_spec u v)
          end; try lia; simpl; try congruence).
Qed.

Lemma dt_le_antisym (a b : datetime) :
  dt_le a b = true -> dt_le b a = true -> a = b.
Proof.
  destruct a as [y1 m1 d1 h1 n1], b as [y2 m2 d2 h2 n2].
  unfold dt_le, dt_lt. simpl.
  repeat (match goal with
          | |- context [?u ?= ?v] => destruct (Z.compare_spec u v)
          end; try lia; simpl; try congruence).
  intros. f_equal; lia.
Qed.

(** X3.  The sorted order is the only one: a permutation of the list that
    is non-decreasing in the key and keeps the records of equal key in
    their order is the list the sort returns.  Any stable sort that
    compares keys with [<] therefore returns what [sort] does here. *)
Theorem sort_expenses_unique (expenses out : list row) :
  (timestamps_parse expenses ->
   sorted_by timestamp dt_le dt_eq expenses out -> sort_by_date expenses = Ok out) /\
  (amounts_parse expenses ->
   sorted_by amount fle feq expenses out -> sort_by_amount expenses = Ok out).
Proof.
  split.
  - intros Hp Hs. destruct (sort_by_date_spec _ Hp) as (out' & -> & Hs').
    f_equal. symmetry.
    apply (sorted_by_unique dt_le dt_eq (fun _ => True) timestamp) with expenses;
      try assumption.
    + intros a _. unfold dt_le. now rewrite dt_lt_irrefl.
    + exact dt_le_trans.
    + intros a b _ _. unfold dt_eq. rewrite bool_decide_eq_true. split.
      * intros ->. unfold dt_le. now rewrite dt_lt_irrefl.
      * intros [? ?]. now apply dt_le_antisym.
    + eapply Forall_impl; [exact Hp|]. intros r [d Hd]. eauto.
  - intros Hp Hs. destruct (sort_by_amount_spec _ Hp) as (out' & -> & Hs').
    f_equal. symmetry.
    apply (sorted_by_unique fle feq (fun x => is_nan x = false) amount) with expenses;
      try assumption.
    + exact fle_refl.
    + exact fle_trans.
    + intros a b _ _. split; [apply feq_fle|]. intros [? ?]. now apply fle_antisym.
Qed.

Lemma sort_expenses_unique_witness :
  exists out,
    sorted_by timestamp dt_le dt_eq [transport_row; rent_row; food_row] out /\
    sort_by_date [transport_row; rent_row; food_row] = Ok out.
Proof.
  assert (Hp : timestamps_parse [transport_row; rent_row; food_row])
    by (repeat constructor; eexists; reflexivity).
  destruct (sort_by_date_spec _ Hp) as (out & _ & Hs).
  exists out. split; [exact Hs|].
  exact (proj1 (sort_expenses_unique [transport_row; rent_row; food_row] out) Hp Hs).
Defined.

(** ** The shape of the store *)

(** X4.  Adding, deleting and editing keep the store a list of records:
    four cells, with text for the timestamp, the category and the note. *)
Theorem records_kept (f : file) :
  records (read_expenses f) ->
  (forall date amount category note clicked,
     records (read_expenses (fst (add_expense f date amount category note clicked)))) /\
  (forall idx clicked f' out,
     delete_expense f idx clicked = Ok (f', out) -> records (read_expenses f')) /\
  (forall idx new_amount new_category new_note clicked f' out,
     edit_expense f idx new_amount new_category new_note clicked = Ok (f', out) ->
     records (read_expenses f')).
Proof.
  intros Hrec. unfold records in *. split; [|split].
  - intros date amount category note [|]; simpl; [|exact Hrec].
    apply Forall_app. split; [exact Hrec|]. now repeat constructor.
  - intros idx clicked f' out. unfold delete_expense.
    destruct (read_expenses f) as [|e es] eqn:E.
    + intros [= <- _]. now rewrite E.
    + destruct clicked; [|intros [= <- _]; now rewrite E].
      intros ((removed & rest) & Hpop & [= <- _])%bind_inv_Ok.
      unfold pop in Hpop. apply bind_inv_Ok in Hpop as (x & _ & [= _ <-]).
      simpl. now apply Forall_delete.
  - intros idx new_amount new_category new_note clicked f' out. unfold edit_expense.
    destruct (read_expenses f) as [|e es] eqn:E.
    + intros [= <- _]. now rewrite E.
    + intros (r & Hr & H)%bind_inv_Ok.
      assert (Hrr : is_record r = true).
      { unfold index in Hr. destruct ((e :: es) !! idx) as [r'|] eqn:El; [|discriminate].
        injection Hr as <-. rewrite Forall_forall in Hrec.
        apply Hrec. eapply list_elem_of_lookup_2. exact El. }
      destruct r as [|[d|] [|a [|[c|] [|[n|] [|]]]]]; try discriminate.
      destruct clicked; [|injection H as <- _; now rewrite E].
      apply bind_inv_Ok in H as ([|] & _ & H); [|injection H as <- _; now rewrite E].
      apply bind_inv_Ok in H as (x & _ & H).
      apply bind_inv_Ok in H as (es' & Hset & [= <- _]).
      unfold setitem in Hset. destruct (decide _); [|discriminate].
      injection Hset as <-. simpl. now apply Forall_insert.
Qed.

Lemma records_kept_witness :
  (forall date amount category note clicked,
     records (read_expenses
                (fst (add_expense (Some [food_row; transport_row]) date amount
                        category note clicked)))) /\
  (forall idx clicked f' out,
     delete_expense (Some [food_row; transport_row]) idx clicked = Ok (f', out) ->
     records (read_expenses f')) /\
  (forall idx new_amount new_category new_note clicked f' out,
     edit_expense (Some [food_row; transport_row]) idx new_amount new_category
       new_note clicked = Ok (f', out) ->
     records (read_expenses f')).
Proof.
  apply (records_kept (Some [food_row; transport_row])). now repeat constructor.
Defined.

(** X5.  The empty store: the total is 0 and the feedback is the "No
    expenses recorded" message; the total view shows R0.00. *)
Theorem empty_store_total :
  total_of (read_expenses None) = Ok (float_of_int 0) /\
  financial_feedback (float_of_int 0) None = no_expenses_msg /\
  forall r, exists tip,
    view_total None None r =
      Ok [ Metric "Total Expenses" "R0.00";
           Info "Please enter your salary in the sidebar to see usage insights.";
           Info tip ].
Proof.
  split; [reflexivity|]. split; [reflexivity|].
  intros r.
  assert (exists tip, show_random_tip r = Ok tip) as [tip Ht].
  { unfold show_random_tip, choice, index.
    match goal with
    | |- context [?l !! ?i] => destruct (lookup_lt_is_Some_2 l i) as [tip Ht]
    end.
    - simpl length. apply Nat.mod_upper_bound. discriminate.
    - exists tip. now rewrite Ht. }
  unfold view_total.
  exists tip. rewrite Ht. reflexivity.
Qed.

(** ** Signed numerals *)

Lemma float_of_decimal_opp m e :
  0 <= m -> float_of_decimal true m e = SFopp (float_of_decimal false m e).
Proof.
  intros Hm. unfold float_of_decimal. destruct m as [|p|p]; [reflexivity| |lia].
  destruct (0 <=? e) eqn:He.
  - apply Z.leb_le in He.
    assert (Hpow : 0 < 10 ^ e) by (apply Z.pow_pos_nonneg; lia).
    destruct (10 ^ e) as [|q|q] eqn:Eq; try lia.
    change (- Z.pos p * Z.pos q) with (Zneg (p * q)).
    change (Z.pos p * Z.pos q) with (Zpos (p * q)).
    unfold binary_normalize, binary_round.
    match goal with
    | |- context [shl_align ?a ?b ?c] => destruct (shl_align a b c) as [mz ez]
    end.
    apply binary_round_aux_opp.
  - destruct (SFdiv_core_binary _ _ _ _ _ _) as [[q e'] l].
    apply binary_round_aux_opp.
Qed.

Lemma int_of_digits_nonneg ds : digits ds -> 0 <= int_of_digits ds.
Proof.
  unfold int_of_digits. intros H.
  assert (G : forall a, 0 <= a -> 0 <= fold_left (fun acc c => 10 * acc + digit_val c) ds a).
  { induction H as [|c ds Hc _ IH]; intros a Ha; simpl; [exact Ha|].
    apply IH. unfold is_digit, digit_val in *. lia. }
  now apply G.
Qed.

Lemma read_number_numeral (ip fp rest : list ascii) :
  ip <> [] -> digits ip -> digits fp -> rest = [] \/ rest = "."%char :: fp ->
  exists m e, 0 <= m /\
    forall neg, read_number neg (ip ++ rest) = Some (float_of_decimal neg m e).
Proof.
  intros Hne Hip Hfp Hrest.
  destruct Hrest as [->| ->].
  - exists (int_of_digits (ip ++ [])), (- Z.of_nat (length (@nil ascii))).
    split; [apply int_of_digits_nonneg; now rewrite app_nil_r|].
    intros neg. unfold read_number. rewrite span_digits by (exact Hip || exact I).
    destruct ip as [|c ip]; [congruence|]. reflexivity.
  - exists (int_of_digits (ip ++ fp)), (- Z.of_nat (length fp)).
    split; [apply int_of_digits_nonneg; now apply Forall_app|].
    intros neg. unfold read_number. rewrite span_digits by (exact Hip || reflexivity).
    pose proof (span_digits fp [] Hfp I) as Hsp. rewrite app_nil_r in Hsp.
    rewrite Ascii.eqb_refl, Hsp.
    destruct ip as [|c ip]; [congruence|]. reflexivity.
Qed.

Lemma float_of_signed (sign l : list ascii) (neg : bool) (x : float) :
  (sign = [] /\ neg = false) \/ (sign = ["-"%char] /\ neg = true) ->
  Forall (fun c => Ascii.eqb c "_" = false /\ is_space c = false) l ->
  match l with c :: _ => is_digit c = true | [] => False end ->
  read_number neg l = Some x ->
  float_of_string (string_of_list_ascii (sign ++ l)) = Ok x.
Proof.
  intros Hsign Hall Hhead Hx.
  destruct l as [|c l]; [contradiction|].
  destruct (digit_facts c Hhead) as (_ & _ & Hm & Hp & _ & Hlow & Hi & Hn).
  unfold float_of_string. rewrite list_ascii_of_string_of_list_ascii.
  assert (Hall' : Forall (fun c => Ascii.eqb c "_" = false /\ is_space c = false)
                    (sign ++ c :: l)).
  { apply Forall_app. split; [|exact Hall].
    destruct Hsign as [[-> _]|[-> _]]; repeat constructor. }
  rewrite drop_underscores_none;
    [|reflexivity|eapply Forall_impl; [exact Hall'|]; now intros ? [? _]].
  rewrite strip_no_space by (eapply Forall_impl; [exact Hall'|]; now intros ? [_ ?]).
  assert (Hs : read_sign (sign ++ c :: l) = (neg, c :: l)).
  { destruct Hsign as [[-> ->]|[-> ->]]; simpl; [|reflexivity]. now rewrite Hm, Hp. }
  unfold read_float. rewrite Hs.
  simpl string_of_list_ascii. simpl lower. rewrite Hlow. simpl String.eqb.
  rewrite Hi, Hn. simpl orb. cbv iota. now rewrite Hx.
Qed.

(** X6.  A minus sign in front of a decimal numeral is accepted too, and
    the number read is the negation of the one the numeral gives: the
    check of the edit path lets every negative amount through. *)
Theorem is_valid_amount_negative (s : string) :
  decimal_numeral s ->
  exists x,
    float_of_string s = Ok x /\
    float_of_string ("-" +:+ s) = Ok (SFopp x) /\
    is_valid_amount ("-" +:+ s) = Ok true.
Proof.
  intros (ip & fp & Hne & Hip & Hfp & Hs).
  assert (exists rest, list_ascii_of_string s = ip ++ rest /\
                       (rest = [] \/ rest = "."%char :: fp)) as (rest & Hl & Hrest).
  { destruct Hs as [->| ->]; [exists []|exists ("."%char :: fp)]; split; auto.
    now rewrite app_nil_r. }
  clear Hs.
  assert (Hall : Forall (fun c => Ascii.eqb c "_" = false /\ is_space c = false)
                   (ip ++ rest)).
  { apply Forall_app. split.
    - eapply Forall_impl; [exact Hip|]. intros c Hc.
      destruct (digit_facts c Hc) as (? & ? & _). now split.
    - destruct Hrest as [->| ->]; constructor; [now split|].
      eapply Forall_impl; [exact Hfp|]. intros c Hc.
      destruct (digit_facts c Hc) as (? & ? & _). now split. }
  assert (Hhead : match ip ++ rest with c :: _ => is_digit c = true | [] => False end).
  { destruct ip as [|c ip]; [congruence|]. now inversion Hip. }
  destruct (read_number_numeral ip fp rest Hne Hip Hfp Hrest) as (m & e & Hm & Hread).
  exists (float_of_decimal false m e).
  assert (Hpos : float_of_string s = Ok (float_of_decimal false m e)).
  { rewrite <- (string_of_list_ascii_of_string s), Hl.
    apply (float_of_signed [] (ip ++ rest) false); auto. }
  assert (Hneg : float_of_string ("-" +:+ s) = Ok (SFopp (float_of_decimal false m e))).
  { rewrite <- float_of_decimal_opp by exact Hm.
    rewrite <- (string_of_list_ascii_of_string s), Hl.
    apply (float_of_signed ["-"%char] (ip ++ rest) true); auto. }
  repeat split; try assumption.
  unfold is_valid_amount. now rewrite Hneg.
Qed.

Lemma is_valid_amount_negative_witness :
  exists x,
    float_of_string "12.50" = Ok x /\
    float_of_string "-12.50" = Ok (SFopp x) /\
    is_valid_amount "-12.50" = Ok true.
Proof.
  apply (is_valid_amount_negative "12.50").
  exists ["1"; "2"]%char, ["5"; "0"]%char.
  split; [discriminate|]. split; [now repeat constructor|].
  split; [now repeat constructor|]. now right.
Defined.

(** ** Writing a timestamp and reading it back *)

Lemma digit_char_facts (d : Z) :
  0 <= d <= 9 ->
  is_digit (digit_char d) = true /\ digit_val (digit_char d) = d /\
  is_blank (digit_char d) = false.
Proof.
  intros H.
  assert (d = 0 \/ d = 1 \/ d = 2 \/ d = 3 \/ d = 4 \/ d = 5 \/ d = 6 \/ d = 7
          \/ d = 8 \/ d = 9) as Hd by lia.
  repeat (destruct Hd as [->|Hd]; [repeat split; reflexivity|]).
  subst. repeat split; reflexivity.
Qed.

Lemma digit_in_char (d lo hi : Z) (rest : list ascii) :
  0 <= d <= 9 -> lo <= d <= hi ->
  digit_in lo hi (digit_char d :: rest) = [(d, rest)].
Proof.
  intros Hd Hr. destruct (digit_char_facts d Hd) as (H1 & H2 & _).
  unfold digit_in. rewrite H1, H2.
  replace (lo <=? d) with true by (symmetry; apply Z.leb_le; lia).
  replace (d <=? hi) with true by (symmetry; apply Z.leb_le; lia).
  reflexivity.
Qed.

Lemma then_digit_char (m : matcher) (a d lo hi : Z) (s rest : list ascii) :
  m s = [(a, digit_char d :: rest)] -> 0 <= d <= 9 -> lo <= d <= hi ->
  then_digit m lo hi s = [(10 * a + d, rest)].
Proof.
  intros Hm Hd Hr. unfold then_digit. rewrite Hm. cbn [flat_map].
  now rewrite digit_in_char.
Qed.

Lemma re_Y_pad4 (y : Z) (rest : list ascii) :
  0 <= y <= 9999 -> re_Y (pad4 y ++ rest) = [(y, rest)].
Proof.
  intros Hy. unfold re_Y, two_digits, pad4. cbn [app].
  assert (H3 : 0 <= y / 1000 <= 9) by (Z.to_euclidean_division_equations; lia).
  assert (H2 : 0 <= y / 100 mod 10 <= 9) by (Z.to_euclidean_division_equations; lia).
  assert (H1 : 0 <= y / 10 mod 10 <= 9) by (Z.to_euclidean_division_equations; lia).
  assert (H0 : 0 <= y mod 10 <= 9) by (Z.to_euclidean_division_equations; lia).
  rewrite (then_digit_char _ (10 * (10 * (y / 1000) + y / 100 mod 10)
                                + y / 10 mod 10) (y mod 10) 0 9 _ rest);
    [|
     apply (then_digit_char _ (10 * (y / 1000) + y / 100 mod 10));
     [apply (then_digit_char _ (y / 1000));
      [apply digit_in_char; lia|lia|lia]|lia|lia]
    |lia|lia].
  do 2 f_equal. Z.to_euclidean_division_equations; lia.
Qed.

Lemma below_cases (P : Z -> Prop) (n : nat) :
  (forall k : nat, (k < n)%nat -> P (Z.of_nat k)) ->
  forall v, 0 <= v < Z.of_nat n -> P v.
Proof.
  intros H v Hv. rewrite <- (Z2Nat.id v) by lia. apply H. lia.
Qed.

Lemma re_m_pad2 (m : Z) (rest : list ascii) :
  1 <= m <= 12 -> exists tl, re_m (pad2 m ++ rest) = (m, rest) :: tl.
Proof.
  intros Hm. revert m Hm.
  assert (G : forall v, 0 <= v < Z.of_nat 13 -> 1 <= v ->
              exists tl, re_m (pad2 v ++ rest) = (v, rest) :: tl).
  { apply (below_cases (fun v => 1 <= v -> _)). intros k Hk.
    do 13 (destruct k as [|k]; [intros ?; try lia; cbv; eexists; reflexivity|]). lia. }
  intros m Hm. apply G; lia.
Qed.

Lemma re_d_pad2 (d : Z) (rest : list ascii) :
  1 <= d <= 31 -> exists tl, re_d (pad2 d ++ rest) = (d, rest) :: tl.
Proof.
  intros Hm. revert d Hm.
  assert (G : forall v, 0 <= v < Z.of_nat 32 -> 1 <= v ->
              exists tl, re_d (pad2 v ++ rest) = (v, rest) :: tl).
  { apply (below_cases (fun v => 1 <= v -> _)). intros k Hk.
    do 32 (destruct k as [|k]; [intros ?; try lia; cbv; eexists; reflexivity|]). lia. }
  intros m Hm. apply G; lia.
Qed.

Lemma re_H_pad2 (h : Z) (rest : list ascii) :
  0 <= h <= 23 -> exists tl, re_H (pad2 h ++ rest) = (h, rest) :: tl.
Proof.
  intros Hm. revert h Hm.
  assert (G : forall v, 0 <= v < Z.of_nat 24 ->
              exists tl, re_H (pad2 v ++ rest) = (v, rest) :: tl).
  { apply (below_cases (fun v => _)). intros k Hk.
    do 24 (destruct k as [|k]; [cbv; eexists; reflexivity|]). lia. }
  intros m Hm. apply G; lia.
Qed.

Lemma re_M_pad2 (m : Z) :
  0 <= m <= 59 -> exists tl, re_M (pad2 m) = (m, []) :: tl.
Proof.
  intros Hm. revert m Hm.
  assert (G : forall v, 0 <= v < Z.of_nat 60 ->
              exists tl, re_M (pad2 v) = (v, []) :: tl).
  { apply (below_cases (fun v => _)). intros k Hk.
    do 60 (destruct k as [|k]; [cbv; eexists; reflexivity|]). lia. }
  intros m Hm. apply G; lia.
Qed.

Lemma re_spaces_one (v : Z) (rest : list ascii) :
  0 <= v <= 99 ->
  re_spaces (" "%char :: pad2 v ++ rest) = [pad2 v ++ rest].
Proof.
  intros Hv. unfold pad2. simpl.
  assert (H : 0 <= v / 10 <= 9) by (Z.to_euclidean_division_equations; lia).
  destruct (digit_char_facts _ H) as (_ & _ & Hb). now rewrite Hb.
Qed.

Lemma list_bind_head {A B} (f : A -> list B) (l : list A) (x : A) (y : B) :
  (exists tl, l = x :: tl) -> (exists tl, f x = y :: tl) ->
  exists tl, l ≫= f = y :: tl.
Proof.
  intros [tl ->] [tl' H]. exists (tl' ++ (tl ≫= f)).
  change ((x :: tl) ≫= f) with (f x ++ (tl ≫= f)). now rewrite H.
Qed.

Lemma re_timestamp_strftime (d : datetime) :
  is_datetime d = true ->
  exists tl, re_timestamp (list_ascii_of_string (strftime d)) = (d, []) :: tl.
Proof.
  unfold is_datetime. intros H.
  repeat (apply andb_prop in H as [H ?]).
  repeat match goal with
         | H : (_ <=? _) = true |- _ => apply Z.leb_le in H
         end.
  assert (Hdm : day d <= 31).
  { pose proof (days_in_month (year d) (month d)) as n.
    assert (days_in_month (year d) (month d) <= 31).
    { unfold days_in_month. repeat destruct (_ =? _); simpl; try lia.
      destruct (is_leap _); lia. }
    lia. }
  destruct d as [y m dd h mi]. cbn [year month day hour minute] in *.
  unfold strftime. rewrite list_ascii_of_string_of_list_ascii.
  cbn [year month day hour minute].
  unfold re_timestamp.
  eapply list_bind_head; [eexists; apply re_Y_pad4; lia|]. cbv beta iota.
  eapply list_bind_head; [eexists; reflexivity|]. cbv beta iota.
  eapply list_bind_head; [apply re_m_pad2; lia|]. cbv beta iota.
  eapply list_bind_head; [eexists; reflexivity|]. cbv beta iota.
  eapply list_bind_head; [apply re_d_pad2; lia|]. cbv beta iota.
  eapply list_bind_head; [eexists; apply re_spaces_one; lia|]. cbv beta iota.
  eapply list_bind_head; [apply re_H_pad2; lia|]. cbv beta iota.
  eapply list_bind_head; [eexists; reflexivity|]. cbv beta iota.
  eapply list_bind_head; [apply re_M_pad2; lia|]. cbv beta iota.
  eexists. reflexivity.
Qed.

Lemma strptime_strftime (d : datetime) :
  is_datetime d = true -> strptime (strftime d) = Ok d.
Proof.
  intros H. destruct (re_timestamp_strftime d H) as [tl Htl].
  unfold strptime. rewrite Htl.
  unfold is_datetime in H. repeat (apply andb_prop in H as [H ?]).
  replace (1 <=? year d) with true by congruence.
  replace (day d <=? days_in_month (year d) (month d)) with true by congruence.
  reflexivity.
Qed.

(** X7.  The row that "Add Expense" appends carries the time of the
    click: its timestamp, written with [strftime], is read back by
    [strptime] as the same date and time.  A store whose timestamps parsed
    still sorts by date once the row is added. *)
Theorem add_expense_timestamp (f : file) (now : datetime) (a : float)
    (category note : string) :
  is_datetime now = true -> 1000 <= year now ->
  exists r,
    read_expenses (fst (add_expense f (strftime now) a category note true))
    = read_expenses f ++ [r] /\
    r !! 0%nat = Some (Str (strftime now)) /\
    timestamp r = Ok now /\
    (timestamps_parse (read_expenses f) -> sorts_by_date (read_expenses f ++ [r])).
Proof.
  intros Hd _. exists [Str (strftime now); Flt a; Str category; Str note].
  assert (Ht : timestamp [Str (strftime now); Flt a; Str category; Str note] = Ok now)
    by (apply strptime_strftime; exact Hd).
  repeat split; try reflexivity; try exact Ht.
  intros Hp. apply sort_by_date_spec. apply Forall_app. split; [exact Hp|].
  constructor; [|constructor]. now exists now.
Qed.

Lemma add_expense_timestamp_witness :
  exists r,
    read_expenses (fst (add_expense (Some [food_row])
                          (strftime (mk_datetime 2024 2 29 23 59))
                          (float_of_int 75) "Food" "lunch" true))
    = read_expenses (Some [food_row]) ++ [r] /\
    r !! 0%nat = Some (Str "2024-02-29 23:59") /\
    timestamp r = Ok (mk_datetime 2024 2 29 23 59) /\
    (timestamps_parse (read_expenses (Some [food_row])) ->
     sorts_by_date (read_expenses (Some [food_row]) ++ [r])).
Proof.
  apply (add_expense_timestamp (Some [food_row]) (mk_datetime 2024 2 29 23 59)
           (float_of_int 75) "Food" "lunch"); [reflexivity|simpl; lia].
Defined.

(** ** Adding, deleting and editing in sequence *)

Lemma delete_last {A} (l : list A) (x : A) : delete (length l) (l ++ [x]) = l.
Proof. induction l as [|y l IH]; simpl; [reflexivity|]. now rewrite IH. Qed.

(** X8.  Deleting the last position right after an add undoes the add:
    the store written holds the rows it held before, and the row reported
    as deleted carries the timestamp, the category and the note that were
    added. *)
Theorem add_then_delete (f : file) (date : string) (a : float)
    (category note : string) :
  exists removed shown,
    delete_expense (fst (add_expense f date a category note true))
      (length (read_expenses f)) true
    = Ok (write_expenses (read_expenses f), shown ++ [Deleted removed]) /\
    length shown = S (length (read_expenses f)) /\
    removed !! 0%nat = Some (Str date) /\
    removed !! 2%nat = Some (Str category) /\
    removed !! 3%nat = Some (Str note).
Proof.
  exists [Str date; Flt a; Str category; Str note].
  exists (imap WriteRow (read_expenses f ++ [[Str date; Flt a; Str category; Str note]])).
  split; [|split; [|now repeat split]].
  - unfold delete_expense. simpl.
    unfold pop, index. rewrite lookup_app_r by lia.
    rewrite Nat.sub_diag. simpl. rewrite delete_last.
    destruct (read_expenses f ++ _) eqn:E; [|reflexivity].
    destruct (read_expenses f); discriminate.
  - rewrite length_imap, length_app. simpl. lia.
Qed.

(** X9.  Saving an edit a second time changes nothing: whatever the
    first save left in the store, the same save leaves it as it is. *)
Theorem edit_expense_twice (f f1 : file) (idx : nat)
    (new_amount new_category new_note : string) (out1 : list ui) :
  edit_expense f idx new_amount new_category new_note true = Ok (f1, out1) ->
  exists out2,
    edit_expense f1 idx new_amount new_category new_note true = Ok (f1, out2).
Proof.
  unfold edit_expense.
  destruct (read_expenses f) as [|e es] eqn:E.
  { intros [= <- _]. rewrite E. eauto. }
  intros (r & Hr & H)%bind_inv_Ok.
  destruct r as [|d [|a [|c [|n [|]]]]]; try discriminate.
  apply bind_inv_Ok in H as ([|] & Hv & H).
  2:{ injection H as <- _. rewrite E, Hr, bind_Ok, Hv, bind_Ok. eauto. }
  apply bind_inv_Ok in H as (x & Hx & H).
  apply bind_inv_Ok in H as (es' & Hset & [= <- _]).
  unfold setitem in Hset. destruct (decide _) as [Hlt|]; [|discriminate].
  injection Hset as <-. unfold write_expenses, read_expenses.
  destruct (<[idx:=_]> (e :: es)) as [|e' es'] eqn:E'.
  { apply (f_equal length) in E'. rewrite length_insert in E'. discriminate. }
  rewrite <- E'. unfold index at 1.
  rewrite list_lookup_insert_eq by exact Hlt. simpl of_option. rewrite bind_Ok.
  rewrite Hv, bind_Ok, Hx, bind_Ok. unfold setitem.
  rewrite length_insert. destruct (decide _); [|contradiction].
  rewrite bind_Ok, list_insert_insert_eq. eauto.
Qed.

Lemma edit_expense_twice_witness :
  exists out2,
    edit_expense
      (Some [food_row;
             [Str "2024-01-10 09:00"; Flt (float_of_int 750); Str "Bus"; Str "monthly"]])
      1 "750" "Bus" "monthly" true
    = Ok (Some [food_row;
                [Str "2024-01-10 09:00"; Flt (float_of_int 750); Str "Bus";
                 Str "monthly"]], out2).
Proof.
  exact (edit_expense_twice (Some [food_row; transport_row]) _ 1 "750" "Bus" "monthly"
           (imap WriteRow [food_row; transport_row] ++ [Success "Expense updated."])
           eq_refl).
Defined.

(** X10.  A stored row that does not have exactly four cells cannot be
    edited: choosing its position raises [ValueError] when the row is
    unpacked, before the button is looked at, and nothing is written. *)
Theorem edit_expense_malformed (f : file) (idx : nat) (r : row)
    (new_amount new_category new_note : string) (clicked : bool) :
  read_expenses f !! idx = Some r -> length r <> 4%nat ->
  edit_expense f idx new_amount new_category new_note clicked = Raise ValueError.
Proof.
  intros Hr Hlen. unfold edit_expense.
  destruct (read_expenses f) as [|e es] eqn:E; [discriminate|].
  unfold index. rewrite Hr. simpl of_option. rewrite bind_Ok.
  destruct r as [|d [|a [|c [|n [|]]]]]; try reflexivity. now contradiction Hlen.
Qed.

Lemma edit_expense_malformed_witness :
  edit_expense (Some [food_row; [Str "2024-01-10 09:00"; Str "800"]]) 1
    "750" "Bus" "monthly" false = Raise ValueError.
Proof.
  apply (edit_expense_malformed _ 1 [Str "2024-01-10 09:00"; Str "800"]);
    [reflexivity|discriminate].
Defined.

(** ** Totals outside the tiers *)

Lemma is_nan_compare (x y : float) : is_nan x = true -> SFcompare x y = None.
Proof. destruct x; try discriminate. reflexivity. Qed.

(** X11.  A total below zero, which negative amounts make possible, is
    answered with the low-spend praise, and a total that is NaN with the
    high-spending warning: with no budget the answer is always one of the
    five messages. *)
Theorem financial_feedback_outside_tiers (total : float) :
  (flt total (float_of_int 0) = true ->
   financial_feedback total None = low_spend_msg) /\
  (is_nan total = true -> financial_feedback total None = high_spend_msg) /\
  financial_feedback total None
    ∈ [no_expenses_msg; low_spend_msg; managing_msg; stricter_msg; high_spend_msg].
Proof.
  unfold financial_feedback. repeat split.
  - intros H. rewrite (flt_not_feq _ _ H).
    rewrite (flt_fle_trans total (float_of_int 0) (float_of_int 1000) H eq_refl).
    reflexivity.
  - intros H. unfold feq, flt, SFeqb, SFltb.
    rewrite !(is_nan_compare total _ H). reflexivity.
  - destruct (feq total _); [repeat constructor|].
    repeat (destruct (flt total _); [repeat constructor|]). repeat constructor.
Qed.

Lemma financial_feedback_outside_tiers_witness :
  financial_feedback (SFopp (float_of_int 250)) None = low_spend_msg /\
  financial_feedback S754_nan None = high_spend_msg.
Proof.
  destruct (financial_feedback_outside_tiers (SFopp (float_of_int 250))) as (H & _).
  destruct (financial_feedback_outside_tiers S754_nan) as (_ & H' & _).
  split; [apply H; reflexivity|apply H'; reflexivity].
Defined.

(** ** Sorting what is sorted *)

Section SortTwice.
Context {K A : Type} (lt : K -> K -> bool) (key : A -> result K).
Hypothesis lt_asym : forall a b, lt a b = true -> lt b a = false.

Lemma insert_head (x : K * A) (l : list (K * A)) :
  HdRel (in_order lt) x l -> insert lt x l = x :: l.
Proof.
  intros [|y l' H]; [reflexivity|]. simpl. unfold in_order in H. now rewrite H.
Qed.

Lemma isort_fixed (l : list (K * A)) : Sorted (in_order lt) l -> isort lt l = l.
Proof.
  induction 1 as [|x l Hs IH Hd]; [reflexivity|].
  simpl. rewrite IH. now apply insert_head.
Qed.

Lemma keyed_inv (l : list A) : forall kl,
  keyed key l = Ok kl ->
  map snd kl = l /\ Forall (fun p => key (snd p) = Ok (fst p)) kl.
Proof.
  unfold keyed. induction l as [|x l IH]; intros kl H; simpl in H.
  - injection H as <-. split; [reflexivity|constructor].
  - apply bind_inv_Ok in H as ([k x'] & Hk & H).
    apply bind_inv_Ok in Hk as (k' & Hk' & [= <- <-]).
    apply bind_inv_Ok in H as (kl' & Hkl & [= <-]).
    destruct (IH _ Hkl) as [Hm Hf]. split; [simpl; now rewrite Hm|].
    constructor; [exact Hk'|exact Hf].
Qed.

Lemma keyed_of (kl : list (K * A)) :
  Forall (fun p => key (snd p) = Ok (fst p)) kl -> keyed key (map snd kl) = Ok kl.
Proof.
  unfold keyed. induction 1 as [|[k x] kl Hk _ IH]; [reflexivity|].
  simpl in *. now rewrite Hk, !bind_Ok, IH, bind_Ok.
Qed.

Lemma sort_twice (l out : list A) :
  sort lt key l = Ok out -> sort lt key out = Ok out.
Proof.
  unfold sort. intros (kl & Hkl & [= <-])%bind_inv_Ok.
  destruct (keyed_inv _ _ Hkl) as [_ Hf].
  rewrite keyed_of by now rewrite isort_perm.
  rewrite bind_Ok. f_equal. f_equal. apply isort_fixed.
  now apply isort_sorted.
Qed.
End SortTwice.

(** X12.  Sorting a list that the sort returned gives the same list: the
    table shown by "Sort Expenses" is a fixed point of the sort. *)
Theorem sort_expenses_idempotent (expenses out : list row) :
  (sort_by_date expenses = Ok out -> sort_by_date out = Ok out) /\
  (amounts_parse expenses ->
   sort_by_amount expenses = Ok out -> sort_by_amount out = Ok out).
Proof.
  split.
  - apply sort_twice. exact dt_lt_asym.
  - intros _. apply sort_twice. exact flt_asym.
Qed.

Lemma sort_expenses_idempotent_witness :
  sort_by_date [rent_row; food_row; transport_row]
  = Ok [rent_row; food_row; transport_row] /\
  sort_by_amount [food_row; transport_row; rent_row]
  = Ok [food_row; transport_row; rent_row].
Proof.
  pose proof (sort_expenses_idempotent [transport_row; rent_row; food_row]
                [rent_row; food_row; transport_row]) as [Hd _].
  pose proof (sort_expenses_idempotent [transport_row; rent_row; food_row]
                [food_row; transport_row; rent_row]) as [_ Ha].
  split; [apply Hd; reflexivity|apply Ha; [|reflexivity]].
  repeat constructor; eexists; (split; reflexivity).
Defined.

(** ** Amounts that cannot be read *)

Lemma traverse_raise {A B} (f : A -> result B) (before after : list A) (x : A)
    (e : exn) :
  Forall (fun y => exists v, f y = Ok v) before -> f x = Raise e ->
  traverse f (before ++ x :: after) = Raise e.
Proof.
  intros Hb Hx. induction Hb as [|y l [v Hv] _ IH]; simpl.
  - now rewrite Hx.
  - now rewrite Hv, bind_Ok, IH.
Qed.

Lemma by_category_raise (before after : list row) (r : row) (e : exn) :
  Forall (fun y => exists k x, index y 2 = Ok k /\ amount y = Ok x) before ->
  (exists k, index r 2 = Ok k) -> amount r = Raise e ->
  forall s0, by_category s0 (before ++ r :: after) = Raise e.
Proof.
  intros Hb [k Hk] Hx. induction Hb as [|y l (ky & xy & Hky & Hxy) _ IH]; intros s0.
  - cbn [app by_category]. now rewrite Hk, bind_Ok, Hx.
  - cbn [app by_category]. rewrite Hky, bind_Ok, Hxy, bind_Ok. apply IH.
Qed.

Lemma amount_record (r : row) :
  is_record r = true ->
  (exists k, index r 2 = Ok k) /\
  ((exists x, amount r = Ok x) \/ amount r = Raise ValueError).
Proof.
  destruct r as [|[d|] [|a [|[c|] [|[n|] [|]]]]]; try discriminate. intros _.
  split; [now eexists|]. unfold amount. simpl.
  destruct a as [s|x]; simpl; [|left; now eexists].
  unfold float_of_string.
  match goal with
  | |- context [of_option _ ?o] => destruct o as [x|]
  end; [left; now exists x|now right].
Qed.

Lemma first_unreadable (l : list row) (r : row) :
  records l -> r ∈ l -> amount r = Raise ValueError ->
  exists before r' after,
    l = before ++ r' :: after /\
    Forall (fun y => exists k x, index y 2 = Ok k /\ amount y = Ok x) before /\
    (exists k, index r' 2 = Ok k) /\ amount r' = Raise ValueError.
Proof.
  intros Hrec. induction Hrec as [|y l Hy _ IH]; intros Hin Hr; [inversion Hin|].
  destruct (amount_record y Hy) as [[k Hk] [[x Hx]|Hbad]].
  - apply elem_of_cons in Hin as [->|Hin]; [congruence|].
    destruct (IH Hin Hr) as (before & r' & after & -> & Hb & Hk' & Hr').
    exists (y :: before), r', after. repeat split; try assumption.
    constructor; [now exists k, x|exact Hb].
  - exists [], y, l. repeat split; [constructor|now exists k|exact Hbad].
Qed.

(** X13.  One stored amount that [is_valid_amount] rejects is enough to
    break every view that adds amounts up or compares them: the total,
    the summary by category, the sort by amount and the report all raise
    [ValueError] and show nothing. *)
Theorem unreadable_amount_raises (f : file) (r : row) (a : string) :
  records (read_expenses f) ->
  r ∈ read_expenses f -> r !! 1%nat = Some (Str a) ->
  is_valid_amount a = Ok false ->
  (forall session n, view_total f session n = Raise ValueError) /\
  summary_by_category f = Raise ValueError /\
  sort_expenses f SortAmount = Raise ValueError /\
  (forall session budget now n,
     financial_report f session AllTime budget now n = Raise ValueError).
Proof.
  intros Hrec Hin Ha Hv.
  assert (Hr : amount r = Raise ValueError).
  { unfold amount, index. rewrite Ha. simpl. unfold is_valid_amount in Hv.
    destruct (float_of_string a) as [x|[]]; try discriminate. reflexivity. }
  destruct (first_unreadable _ _ Hrec Hin Hr)
    as (before & r' & after & E & Hb & Hk & Hr').
  assert (Hb' : Forall (fun y => exists x, amount y = Ok x) before).
  { eapply Forall_impl; [exact Hb|]. intros y (k & x & _ & Hx). now exists x. }
  assert (Ht : total_of (read_expenses f) = Raise ValueError).
  { unfold total_of. rewrite E. now rewrite (traverse_raise amount _ _ _ _ Hb' Hr'). }
  repeat split.
  - intros session n. unfold view_total. now rewrite Ht.
  - unfold summary_by_category. rewrite E.
    now rewrite (by_category_raise _ _ _ _ Hb Hk Hr').
  - unfold sort_expenses, sort_by_amount, sort, keyed. rewrite E.
    rewrite (traverse_raise _ before after r' ValueError); [reflexivity| |].
    + eapply Forall_impl; [exact Hb'|]. intros y [x Hx]. exists (x, y).
      unfold amount in Hx. now rewrite Hx.
    + unfold amount in Hr'. now rewrite Hr'.
  - intros session budget now n. unfold financial_report.
    destruct (read_expenses f) as [|e es] eqn:El.
    + now destruct before.
    + unfold in_time_range. rewrite bind_Ok, Ht. reflexivity.
Qed.

Lemma unreadable_amount_raises_witness :
  (forall session n,
     view_total (Some [food_row; garbled_row]) session n = Raise ValueError) /\
  summary_by_category (Some [food_row; garbled_row]) = Raise ValueError /\
  sort_expenses (Some [food_row; garbled_row]) SortAmount = Raise ValueError /\
  (forall session budget now n,
     financial_report (Some [food_row; garbled_row]) session AllTime budget now n
     = Raise ValueError).
Proof.
  apply (unreadable_amount_raises (Some [food_row; garbled_row]) garbled_row "abc").
  - now repeat constructor.
  - right. left.
  - reflexivity.
  - reflexivity.
Defined.

(** ** The order of the summary *)

Lemma filter_filter_and {A} (p q : A -> bool) (l : list A) :
  List.filter p (List.filter q l) = List.filter (fun x => q x && p x) l.
Proof.
  induction l as [|x l IH]; simpl; [reflexivity|].
  destruct (q x); simpl; [|exact IH]. destruct (p x); now rewrite IH.
Qed.

Lemma filter_all {A} (p : A -> bool) (l : list A) :
  (forall x, p x = true) -> List.filter p l = l.
Proof.
  intros H. induction l as [|x l IH]; simpl; [reflexivity|]. now rewrite H, IH.
Qed.

Lemma by_category_keys rs : forall s0 s,
  by_category s0 rs = Ok s ->
  map fst s
  = map fst s0
    ++ List.filter (fun k => negb (bool_decide (k ∈ map fst s0)))
         (first_seen (categories rs)).
Proof.
  induction rs as [|r rs IH]; intros s0 s H.
  - injection H as <-. simpl. now rewrite app_nil_r.
  - apply by_category_inv in H as (k & x & Hk & _ & H).
    rewrite (IH _ _ H), keys_add_at. unfold categories. simpl omap. rewrite Hk.
    simpl. fold (categories rs). rewrite filter_filter_and.
    destruct (decide (k ∈ map fst s0)) as [Hin|Hin].
    + rewrite bool_decide_eq_true_2 by exact Hin. simpl. f_equal.
      apply List.filter_ext. intros k'.
      destruct (bool_decide (k' = k)) eqn:E; simpl; [|reflexivity].
      apply bool_decide_eq_true in E as ->. now rewrite bool_decide_eq_true_2.
    + rewrite bool_decide_eq_false_2 by exact Hin. simpl.
      rewrite <- app_assoc. simpl. do 2 f_equal.
      apply List.filter_ext. intros k'.
      destruct (decide (k' = k)) as [->|Hne].
      * rewrite (bool_decide_eq_true_2 (k ∈ map fst s0 ++ [k]))
          by (apply elem_of_app; right; left).
        now rewrite (bool_decide_eq_true_2 (k = k)).
      * rewrite (bool_decide_eq_false_2 (k' = k)) by exact Hne. simpl.
        destruct (decide (k' ∈ map fst s0)) as [H'|H'].
        -- rewrite (bool_decide_eq_true_2 (k' ∈ map fst s0)) by exact H'.
           rewrite (bool_decide_eq_true_2 (k' ∈ map fst s0 ++ [k]));
             [reflexivity|apply elem_of_app; now left].
        -- rewrite (bool_decide_eq_false_2 (k' ∈ map fst s0)) by exact H'.
           rewrite (bool_decide_eq_false_2 (k' ∈ map fst s0 ++ [k]));
             [reflexivity|].
           intros [?|?%list_elem_of_singleton]%elem_of_app; contradiction.
Qed.

(** X14.  "Summary by Category" writes one line for each category, in
    the order in which the categories first appear in the store. *)
Theorem summary_order (f : file) (out : list ui) :
  summary_by_category f = Ok out ->
  exists summary,
    out = map (fun '(c, t) => WriteTotal c ("R" +:+ format_2f t)) summary /\
    map fst summary = first_seen (categories (read_expenses f)).
Proof.
  unfold summary_by_category. intros (summary & H & [= <-])%bind_inv_Ok.
  exists summary. split; [reflexivity|].
  rewrite (by_category_keys _ _ _ H). simpl. apply filter_all.
  intros k. reflexivity.
Qed.

Lemma summary_order_witness :
  exists summary,
    [ WriteTotal (Str "Transport") "R800.00"; WriteTotal (Str "Food") "R1000.00";
      WriteTotal (Str "Rent") "R1000.00" ]
    = map (fun '(c, t) => WriteTotal c ("R" +:+ format_2f t)) summary /\
    map fst summary = [Str "Transport"; Str "Food"; Str "Rent"].
Proof.
  exact (summary_order (Some [transport_row; food_row; rent_row; food_row]) _ eq_refl).
Defined.

(** ** The time range of the report *)

(** X15.  When every timestamp parses, the report's "This Month" keeps
    exactly the rows of the month and year of [now], "This Year" the rows
    of its year, "All Time" every row, each in the order of the store; the
    rows of the month are among those of the year. *)
Theorem in_time_range_exact (expenses : list row) (now : datetime) :
  timestamps_parse expenses ->
  in_time_range ThisMonth now expenses = Ok (List.filter (in_month now) expenses) /\
  in_time_range ThisYear now expenses = Ok (List.filter (in_year now) expenses) /\
  in_time_range AllTime now expenses = Ok expenses /\
  List.filter (in_month now) (List.filter (in_year now) expenses)
  = List.filter (in_month now) expenses.
Proof.
  intros Hp. repeat split.
  - apply select_filter. eapply Forall_impl; [exact Hp|]. intros r [d Hd].
    unfold in_month. unfold timestamp in *. cbv beta.
    apply bind_inv_Ok in Hd as (c & Hc & Hd). rewrite Hc, !bind_Ok, Hd, !bind_Ok.
    now destruct (month d =? month now).
  - apply select_filter. eapply Forall_impl; [exact Hp|]. intros r [d Hd].
    unfold in_year. unfold timestamp in *. cbv beta.
    apply bind_inv_Ok in Hd as (c & Hc & Hd). now rewrite Hc, !bind_Ok, Hd, !bind_Ok.
  - rewrite filter_filter_and. apply List.filter_ext. intros r.
    unfold in_month, in_year. destruct (timestamp r) as [d|]; [|reflexivity].
    destruct (year d =? year now); [reflexivity|]. simpl. now rewrite andb_false_r.
Qed.

Lemma in_time_range_exact_witness :
  in_time_range ThisMonth (mk_datetime 2024 1 31 12 0)
    [food_row; [Str "2023-01-05 10:00"; Str "5"; Str "Food"; Str ""]]
  = Ok [food_row].
Proof.
  apply (in_time_range_exact
           [food_row; [Str "2023-01-05 10:00"; Str "5"; Str "Food"; Str ""]]
           (mk_datetime 2024 1 31 12 0)).
  repeat constructor; eexists; reflexivity.
Defined.
(** X16.  A report over a range that holds no row: the total is shown as
    R0.00, the feedback is the "No expenses recorded" message whatever
    the budget, and the tip is the invitation to start logging. *)
Theorem report_nothing_in_range (f : file) (session : option float)
    (t : time_range) (budget : float) (now : datetime) (n : nat) :
  read_expenses f <> [] ->
  in_time_range t now (read_expenses f) = Ok [] ->
  no_salary session ->
  financial_report f session t budget now n
  = Ok [ Subheader "Financial Report";
         Write ("**Total Spending (" +:+ time_range_text t +:+ ")**: R0.00");
         Info no_expenses_msg;
         Info "Please enter your salary in the sidebar to evaluate your financial health.";
         Info "Start logging your expenses to get personalized tips!" ].
Proof.
  intros Hne Hr Hs. unfold financial_report.
  destruct (read_expenses f) as [|e es]; [contradiction|].
  rewrite Hr, bind_Ok. rewrite (salary_set_none _ Hs). reflexivity.
Qed.

Lemma report_nothing_in_range_witness :
  financial_report (Some [food_row]) None ThisMonth (float_of_int 300)
    (mk_datetime 2024 2 29 23 59) 3
  = Ok [ Subheader "Financial Report";
         Write "**Total Spending (This Month)**: R0.00";
         Info no_expenses_msg;
         Info "Please enter your salary in the sidebar to evaluate your financial health.";
         Info "Start logging your expenses to get personalized tips!" ].
Proof.
  apply (report_nothing_in_range (Some [food_row]) None ThisMonth);
    [discriminate|reflexivity|now left].
Defined.

(** ** The salary of the session *)

Lemma sidebar_runs_falsy (session : option float) (inputs : list float) :
  Forall (fun z => truthy z = false) inputs -> sidebar_runs session inputs = session.
Proof.
  unfold sidebar_runs. induction 1 as [|z l Hz _ IH]; simpl; [reflexivity|].
  unfold sidebar_salary at 2. now rewrite Hz.
Qed.

(** X17.  The salary in force is the last non-zero value the sidebar
    input took: a zero entered later leaves it in place, so a salary once
    recorded cannot be cleared during the session. *)
Theorem sidebar_salary_kept (session : option float) (inputs zeros : list float)
    (x : float) :
  Forall (fun z => truthy z = false) zeros ->
  sidebar_runs session zeros = session /\
  (truthy x = true ->
   salary_set (sidebar_runs session (inputs ++ x :: zeros)) = Some x).
Proof.
  intros Hz. split; [now apply sidebar_runs_falsy|]. intros Hx.
  unfold sidebar_runs. rewrite fold_left_app. simpl.
  unfold sidebar_salary at 2. rewrite Hx. simpl.
  fold (sidebar_runs (Some x) zeros). rewrite sidebar_runs_falsy by exact Hz.
  simpl. now rewrite Hx.
Qed.

Lemma sidebar_salary_kept_witness :
  salary_set
    (sidebar_runs None
       [float_of_int 0; float_of_int 1500; float_of_int 2000; float_of_int 0])
  = Some (float_of_int 2000).
Proof.
  apply (sidebar_salary_kept None [float_of_int 0; float_of_int 1500]
           [float_of_int 0] (float_of_int 2000)).
  - now repeat constructor.
  - reflexivity.
Defined.
(** ** Printing whole totals *)

Lemma hundredths_canon (p : positive) :
  Zpos p < 2 ^ 53 ->
  hundredths (shl p (Z.to_nat (53 - Zpos (digits2_pos p))))
    (Zpos (digits2_pos p) - 53)
  = Zpos p * 100.
Proof.
  intros Hp. pose proof (digits_le_53 p Hp) as Hd.
  set (d := Zpos (digits2_pos p)) in *.
  unfold hundredths. rewrite Zpos_shl, Z2Nat.id by lia.
  destruct (0 <=? d - 53) eqn:E.
  - apply Z.leb_le in E. replace (53 - d) with 0 by lia.
    replace (d - 53) with 0 by lia. simpl (2 ^ 0). lia.
  - apply Z.leb_gt in E. replace (- (d - 53)) with (53 - d) by lia.
    assert (Hpow : 0 < 2 ^ (53 - d)) by (apply Z.pow_pos_nonneg; lia).
    replace (Zpos p * 2 ^ (53 - d) * 100) with (Zpos p * 100 * 2 ^ (53 - d)) by lia.
    rewrite Z.div_mul, Z.mod_mul by lia.
    destruct (Z.compare_spec (2 * 0) (2 ^ (53 - d))); lia.
Qed.

Lemma fixed2_whole (n : Z) :
  0 <= n -> fixed2 (n * 100) = string_of_nat_Z n +:+ ".00".
Proof.
  intros Hn. unfold fixed2.
  rewrite Z.div_mul, Z.mod_mul by lia.
  replace (n * 100 mod 10) with 0
    by (replace (n * 100) with (n * 10 * 10) by lia; now rewrite Z.mod_mul).
  reflexivity.
Qed.

Lemma format_2f_whole (n : Z) :
  0 <= n < 2 ^ 53 -> format_2f (float_of_int n) = string_of_nat_Z n +:+ ".00".
Proof.
  intros [Hn Hb]. destruct n as [|p|p]; [reflexivity| |lia].
  rewrite float_of_int_pos by exact Hb. unfold canon, format_2f.
  rewrite hundredths_canon by exact Hb. now rewrite fixed2_whole.
Qed.

(** X18.  When the stored amounts are whole numbers, none negative, the
    total shown by "View Total" is their sum, written exactly: the
    digits of the sum, then [.00]. *)
Theorem view_total_whole (f : file) (ns : list Z) (n : nat) :
  whole_amounts (read_expenses f) ns -> Zsum ns < 2 ^ 53 ->
  exists tip,
    view_total f None n
    = Ok [ Metric "Total Expenses" ("R" +:+ string_of_nat_Z (Zsum ns) +:+ ".00");
           Info "Please enter your salary in the sidebar to see usage insights.";
           Info tip ].
Proof.
  intros Hw Hb.
  assert (Hnn : 0 <= Zsum ns).
  { apply Zsum_nonneg. clear Hb. induction Hw as [|r z rs zs [Hz _] _ IH];
      constructor; assumption. }
  assert (exists tip, show_random_tip n = Ok tip) as [tip Ht].
  { unfold show_random_tip, choice, index.
    match goal with
    | |- context [?l !! ?i] => destruct (lookup_lt_is_Some_2 l i) as [tip Ht]
    end.
    - simpl length. apply Nat.mod_upper_bound. discriminate.
    - exists tip. now rewrite Ht. }
  exists tip. unfold view_total.
  rewrite (total_of_ints _ _ Hw Hb), bind_Ok. simpl salary_set. cbv iota.
  rewrite bind_Ok, Ht, bind_Ok, format_2f_whole by lia. reflexivity.
Qed.

Lemma view_total_whole_witness :
  exists tip,
    view_total (Some [food_row; transport_row; rent_row]) None 4
    = Ok [ Metric "Total Expenses" "R2300.00";
           Info "Please enter your salary in the sidebar to see usage insights.";
           Info tip ].
Proof.
  apply (view_total_whole (Some [food_row; transport_row; rent_row])
           [500; 800; 1000] 4).
  - unfold whole_amounts. repeat (constructor; [split; [lia|reflexivity]|]).
    constructor.
  - simpl. lia.
Defined.

(** ** A store kept by the program *)

(** X19.  Adding (with the timestamp of a valid date and time), deleting
    and editing keep the timestamps of the store readable: if every stored
    timestamp parsed before, every one parses after, so the sort by date
    and the time ranges of the report go on working. *)
Theorem timestamps_kept (f : file) :
  timestamps_parse (read_expenses f) ->
  (forall now a category note clicked,
     is_datetime now = true -> 1000 <= year now ->
     timestamps_parse
       (read_expenses
          (fst (add_expense f (strftime now) a category note clicked)))) /\
  (forall idx clicked f' out,
     delete_expense f idx clicked = Ok (f', out) ->
     timestamps_parse (read_expenses f')) /\
  (forall idx new_amount new_category new_note clicked f' out,
     edit_expense f idx new_amount new_category new_note clicked = Ok (f', out) ->
     timestamps_parse (read_expenses f')).
Proof.
  intros Hs. unfold timestamps_parse in *. split; [|split].
  - intros now a category note [|] Hd _; simpl; [|exact Hs].
    apply Forall_app. split; [exact Hs|]. constructor; [|constructor].
    exists now. now apply strptime_strftime.
  - intros idx clicked f' out. unfold delete_expense.
    destruct (read_expenses f) as [|e es] eqn:E.
    + intros [= <- _]. now rewrite E.
    + destruct clicked; [|intros [= <- _]; now rewrite E].
      intros ((removed & rest) & Hpop & [= <- _])%bind_inv_Ok.
      unfold pop in Hpop. apply bind_inv_Ok in Hpop as (x & _ & [= _ <-]).
      simpl. now apply Forall_delete.
  - intros idx new_amount new_category new_note clicked f' out. unfold edit_expense.
    destruct (read_expenses f) as [|e es] eqn:E.
    + intros [= <- _]. now rewrite E.
    + intros (r & Hr & H)%bind_inv_Ok.
      assert (Ht : exists d, timestamp r = Ok d).
      { unfold index in Hr. destruct ((e :: es) !! idx) as [r'|] eqn:El; [|discriminate].
        injection Hr as <-. rewrite Forall_forall in Hs.
        apply Hs. eapply list_elem_of_lookup_2. exact El. }
      destruct r as [|d [|a [|c [|n [|]]]]]; try discriminate.
      destruct clicked; [|injection H as <- _; now rewrite E].
      apply bind_inv_Ok in H as ([|] & _ & H); [|injection H as <- _; now rewrite E].
      apply bind_inv_Ok in H as (x & _ & H).
      apply bind_inv_Ok in H as (es' & Hset & [= <- _]).
      unfold setitem in Hset. destruct (decide _); [|discriminate].
      injection Hset as <-. simpl. apply Forall_insert; [exact Hs|exact Ht].
Qed.

Lemma timestamps_kept_witness :
  timestamps_parse
    (read_expenses
       (fst (add_expense (Some [food_row]) (strftime (mk_datetime 2024 2 29 23 59))
               (float_of_int 75) "Food" "lunch" true))) /\
  (forall idx clicked f' out,
     delete_expense (Some [food_row]) idx clicked = Ok (f', out) ->
     timestamps_parse (read_expenses f')) /\
  (forall idx new_amount new_category new_note clicked f' out,
     edit_expense (Some [food_row]) idx new_amount new_category new_note clicked
     = Ok (f', out) ->
     timestamps_parse (read_expenses f')).
Proof.
  destruct (timestamps_kept (Some [food_row])) as (Ha & Hd & He).
  - constructor; [|constructor]. eexists. reflexivity.
  - split; [|split; [exact Hd|exact He]].
    apply Ha; [reflexivity|simpl; lia].
Defined.

Lemma traverse_total {A B} (f : A -> result B) (l : list A) :
  Forall (fun y => exists v, f y = Ok v) l -> exists vs, traverse f l = Ok vs.
Proof.
  induction 1 as [|y l [v Hv] _ [vs IH]]; simpl; [now eexists|].
  exists (v :: vs). now rewrite Hv, bind_Ok, IH.
Qed.

Lemma select_total {A} (p : A -> result bool) (P : A -> Prop) (l : list A) :
  Forall (fun y => exists b, p y = Ok b) l -> Forall P l ->
  exists out, select p l = Ok out /\ Forall P out.
Proof.
  induction 1 as [|y l [b Hb] _ IH]; intros HP; simpl.
  - exists []. now split.
  - inversion HP as [|? ? Hy HP']; subst. destruct (IH HP') as (out & Ho & HPo).
    rewrite Hb, bind_Ok, Ho, bind_Ok.
    destruct b; eexists; (split; [reflexivity|]); [now constructor|assumption].
Qed.

Lemma by_category_returns (rs : list row) :
  sound rs -> forall s0, exists s, by_category s0 rs = Ok s.
Proof.
  induction 1 as [|r rs (Hrec & _ & [x Hx]) _ IH]; intros s0; [now eexists|].
  destruct (amount_record r Hrec) as [[k Hk] _].
  cbn [by_category]. rewrite Hk, bind_Ok, Hx, bind_Ok. apply IH.
Qed.

Lemma total_of_returns (rs : list row) : sound rs -> exists t, total_of rs = Ok t.
Proof.
  intros Hs. unfold total_of.
  destruct (traverse_total amount rs) as [xs Hxs].
  - eapply Forall_impl; [exact Hs|]. now intros r (_ & _ & Hx).
  - rewrite Hxs. now eexists.
Qed.

Lemma choice_total {A} (n : nat) (l : list A) :
  l <> [] -> exists x, choice n l = Ok x.
Proof.
  intros Hl. unfold choice, index.
  destruct (lookup_lt_is_Some_2 l (n mod length l)) as [x Hx].
  - apply Nat.mod_upper_bound. now destruct l.
  - exists x. now rewrite Hx.
Qed.

(** X20.  On a store of such rows no view raises: the total, the summary,
    both sorts, both filters and the report for every time range return
    what they show, whatever the salary, the budget, the filter text and
    the clock. *)
Theorem sound_views (f : file) :
  sound (read_expenses f) ->
  (forall session n, exists out, view_total f session n = Ok out) /\
  (exists out, summary_by_category f = Ok out) /\
  (forall by_, exists out, sort_expenses f by_ = Ok out) /\
  (forall by_ text, exists out, filter_expenses f by_ text = Ok out) /\
  (forall session t budget now n,
     exists out, financial_report f session t budget now n = Ok out).
Proof.
  intros Hs. split; [|split; [|split; [|split]]].
  - intros session n. unfold view_total.
    destruct (total_of_returns _ Hs) as [t ->]. rewrite bind_Ok.
    destruct (choice_total n
                [ "Track your spending daily to avoid surprises.";
                  "Group similar expenses to understand patterns.";
                  "Always categorize your income separately.";
                  "Try to save at least 10% of your monthly income.";
                  "Review your top 3 expense categories weekly.";
                  "Use the summary graph to find spending leaks.";
                  "Avoid emotional spending — pause before buying." ])
      as [tip Ht]; [discriminate|].
    unfold show_random_tip. rewrite Ht.
    destruct (salary_set session) as [s|] eqn:E.
    + rewrite (truediv_nonzero _ _ (salary_set_truthy _ _ E)), !bind_Ok.
      now eexists.
    + rewrite !bind_Ok. now eexists.
  - unfold summary_by_category.
    destruct (by_category_returns _ Hs []) as [s ->]. rewrite bind_Ok. now eexists.
  - intros by_. unfold sort_expenses. destruct by_.
    + destruct (sort_by_date_spec (read_expenses f)) as (out & -> & _).
      * eapply Forall_impl; [exact Hs|]. now intros r (_ & Ht & _).
      * rewrite bind_Ok. now eexists.
    + destruct (keyed_total (fun _ : float => True) amount (read_expenses f))
        as (kl & Hkl & _).
      * eapply Forall_impl; [exact Hs|]. intros r (_ & _ & [x Hx]). now exists x.
      * unfold sort_by_amount, sort. unfold amount in Hkl. rewrite Hkl, !bind_Ok.
        now eexists.
  - intros by_ text. unfold filter_expenses.
    assert (Hrec : Forall (fun r => is_record r = true) (read_expenses f)).
    { eapply Forall_impl; [exact Hs|]. now intros r (? & _). }
    destruct by_.
    + destruct (select_total
                  (fun e => c ← index e 2; l ← py_lower c;
                            Ok (String.eqb l (lower text)))
                  (fun _ => True) (read_expenses f)) as (out & Ho & _).
      * eapply Forall_impl; [exact Hrec|]. intros r Hr.
        destruct r as [|[d|] [|a [|[c|] [|[n|] [|]]]]]; try discriminate.
        now eexists.
      * now apply Forall_true.
      * unfold filter_by_category. rewrite Ho, bind_Ok. now eexists.
    + destruct (select_total
                  (fun e => c ← index e 0; py_startswith c text)
                  (fun _ => True) (read_expenses f)) as (out & Ho & _).
      * eapply Forall_impl; [exact Hrec|]. intros r Hr.
        destruct r as [|[d|] [|a [|[c|] [|[n|] [|]]]]]; try discriminate.
        now eexists.
      * now apply Forall_true.
      * unfold filter_by_date. rewrite Ho, bind_Ok. now eexists.
  - intros session t budget now n. unfold financial_report.
    destruct (read_expenses f) as [|e es] eqn:El; [now eexists|].
    rewrite <- El in Hs |- *. clear El e es.
    assert (exists filtered,
               in_time_range t now (read_expenses f) = Ok filtered /\ sound filtered)
      as (filtered & -> & Hf).
    { destruct t; unfold in_time_range; [| |now eexists]; apply select_total;
        try exact Hs; (eapply Forall_impl; [exact Hs|]);
        intros r (_ & [d Hd] & _); unfold timestamp in Hd;
        apply bind_inv_Ok in Hd as (c & Hc & Hd); rewrite Hc, !bind_Ok, Hd, !bind_Ok.
      - destruct (month d =? month now); now eexists.
      - now eexists. }
    rewrite bind_Ok. destruct (total_of_returns _ Hf) as [total ->]. rewrite bind_Ok.
    assert (exists tip, tip_based_on_expenses n filtered = Ok tip) as [tip ->].
    { unfold tip_based_on_expenses. destruct filtered; [now eexists|].
      apply choice_total. discriminate. }
    destruct (salary_set session) as [s|] eqn:E.
    + rewrite (truediv_nonzero _ _ (salary_set_truthy _ _ E)), !bind_Ok.
      now eexists.
    + rewrite !bind_Ok. now eexists.
Qed.

Lemma sound_views_witness :
  (forall session n, exists out,
     view_total (Some [food_row; transport_row]) session n = Ok out) /\
  (exists out, summary_by_category (Some [food_row; transport_row]) = Ok out) /\
  (forall by_, exists out, sort_expenses (Some [food_row; transport_row]) by_ = Ok out) /\
  (forall by_ text, exists out,
     filter_expenses (Some [food_row; transport_row]) by_ text = Ok out) /\
  (forall session t budget now n, exists out,
     financial_report (Some [food_row; transport_row]) session t budget now n = Ok out).
Proof.
  apply (sound_views (Some [food_row; transport_row])).
  repeat constructor; eexists; reflexivity.
Defined.
